(** * c-json: a shallow embedding of the pull-style decoder of src/c-json.c

    The cursor [json->p] is modelled as the suffix of the input that starts
    at the cursor: [*json->p] is [cur p] (the NUL terminator when the suffix
    is empty) and [json->p += 1] is [adv1 p].  A [size_t] is a [Z] with its
    wrap-around written out.  Output written to the [open_memstream] stream
    is the list of byte values put there with [fputc]; the memory stream is
    assumed never to fail, so the [-ENOTRECOVERABLE] paths are not taken. *)

From Stdlib Require Import String Ascii ZArith List Bool Lia.
Import ListNotations.
Open Scope Z_scope.

(** ** Characters *)

Definition NUL : ascii := ascii_of_nat 0.
Definition dquote : ascii := ascii_of_nat 34.
Definition backslash : ascii := ascii_of_nat 92.

Definition ceq (a b : ascii) : bool := Ascii.eqb a b.

(** [*p]: the character under the cursor, NUL at the end of the input. *)
Definition cur (s : string) : ascii :=
  match s with
  | EmptyString => NUL
  | String c _ => c
  end.

(** [p += 1] *)
Definition adv1 (s : string) : string :=
  match s with
  | EmptyString => EmptyString
  | String _ t => t
  end.

(** [p[1]] *)
Definition cur1 (s : string) : ascii := cur (adv1 s).

(** [p += n] *)
Fixpoint advn (n : nat) (s : string) : string :=
  match n with
  | O => s
  | S n' => advn n' (adv1 s)
  end.

Definition byte_of (c : ascii) : Z := Z.of_nat (nat_of_ascii c).

(** ** Data model *)

(** Error codes of c-json.h. *)
Inductive err : Type :=
| E_INVALID_JSON
| E_INVALID_TYPE
| E_DEPTH_OVERFLOW
| E_NOTRECOVERABLE.

(** The character-coded state of one nesting level:
    [0] root, ['['] array awaiting a value or [']'], [','] array with the
    cursor behind a [','], ['{'] object awaiting a key, [':'] object with
    the cursor at a value. *)
Inductive lvl : Type :=
| Root                 (* 0   *)
| ArrayAwaitingValue   (* '[' *)
| ArrayAfterValue      (* ',' *)
| ObjectAwaitingKey    (* '{' *)
| ObjectAfterKey.      (* ':' *)

Definition lvl_eqb (a b : lvl) : bool :=
  match a, b with
  | Root, Root | ArrayAwaitingValue, ArrayAwaitingValue
  | ArrayAfterValue, ArrayAfterValue | ObjectAwaitingKey, ObjectAwaitingKey
  | ObjectAfterKey, ObjectAfterKey => true
  | _, _ => false
  end.

Definition SIZE_MOD : Z := 2 ^ 64.

(** [struct CJson]; [input] is [None] for the NULL pointer. *)
Record CJson : Type := mkCJson {
  input : option string;
  p : string;
  poison : option err;
  n_states : Z;
  level : Z;
  states : list lvl
}.

Definition set_p (j : CJson) (q : string) : CJson :=
  mkCJson (input j) q (poison j) (n_states j) (level j) (states j).

Definition set_poison (j : CJson) (e : err) : CJson :=
  mkCJson (input j) (p j) (Some e) (n_states j) (level j) (states j).

Definition set_level (j : CJson) (l : Z) : CJson :=
  mkCJson (input j) (p j) (poison j) (n_states j) l (states j).

(** [states[i] = v]; out of range the C write is undefined, here a no-op. *)
Fixpoint list_set (l : list lvl) (i : nat) (v : lvl) : list lvl :=
  match l, i with
  | [], _ => []
  | _ :: t, O => v :: t
  | x :: t, S i' => x :: list_set t i' v
  end.

Definition set_state (j : CJson) (v : lvl) : CJson :=
  mkCJson (input j) (p j) (poison j) (n_states j) (level j)
          (list_set (states j) (Z.to_nat (level j)) v).

(** [json->states[json->level]] *)
Definition cur_state (j : CJson) : lvl := nth (Z.to_nat (level j)) (states j) Root.

(** [return (json->poison = e);] *)
Definition fail {A} (j : CJson) (e : err) : CJson * (err + A) :=
  (set_poison j e, inl e).

(** ** skip_space *)

Definition is_ws (c : ascii) : bool :=
  ceq c " "%char || ceq c (ascii_of_nat 9) || ceq c (ascii_of_nat 10)
  || ceq c (ascii_of_nat 13).

Fixpoint skip_space (s : string) : string :=
  match s with
  | String c t => if is_ws c then skip_space t else s
  | EmptyString => EmptyString
  end.

(** ** c_json_advance *)

Definition advance (j : CJson) : CJson * option err :=
  match poison j with
  | Some e => (j, Some e)
  | None =>
    let j := set_p j (skip_space (p j)) in
    let c := cur (p j) in
    match cur_state j with
    | ArrayAwaitingValue =>
        if ceq c ","%char then
          (set_p (set_state j ArrayAfterValue) (skip_space (adv1 (p j))), None)
        else if negb (ceq c "]"%char) then
          (set_poison j E_INVALID_JSON, Some E_INVALID_JSON)
        else (j, None)
    | ArrayAfterValue =>
        if ceq c ","%char then (set_p j (skip_space (adv1 (p j))), None)
        else if ceq c "]"%char then (set_state j ArrayAwaitingValue, None)
        else (set_poison j E_INVALID_JSON, Some E_INVALID_JSON)
    | ObjectAwaitingKey =>
        if ceq c ":"%char then
          (set_p (set_state j ObjectAfterKey) (skip_space (adv1 (p j))), None)
        else (set_poison j E_INVALID_JSON, Some E_INVALID_JSON)
    | ObjectAfterKey =>
        if ceq c ","%char then
          let j := set_p (set_state j ObjectAwaitingKey) (skip_space (adv1 (p j))) in
          if negb (ceq (cur (p j)) dquote) then
            (set_poison j E_INVALID_JSON, Some E_INVALID_JSON)
          else (j, None)
        else if negb (ceq c "}"%char) then
          (set_poison j E_INVALID_JSON, Some E_INVALID_JSON)
        else (j, None)
    | Root => (j, None)
    end
  end.

(** A reader's tail: [r = c_json_advance(json); if (r) return r; ... return 0;] *)
Definition advance_then {A} (j : CJson) (v : A) : CJson * (err + A) :=
  match advance j with
  | (j', Some e) => (j', inl e)
  | (j', None) => (j', inr v)
  end.

(** ** Construction and sessions *)

(** [sizeof(struct CJson)] on an LP64 target: two pointers, an [int]
    padded to 8 bytes and two [size_t]; the flexible array [states] starts
    behind them. *)
Definition SIZEOF_CJSON : Z := 40.

(** [sizeof( *json) + max_depth + 1], computed in [size_t]. *)
Definition alloc_size (max_depth : Z) : Z :=
  (SIZEOF_CJSON + max_depth + 1) mod SIZE_MOD.

(** [c_json_new]: [calloc] zeroes every byte, i.e. every level is [Root];
    the slots of [states] are the bytes allocated behind the header, none
    when the size has wrapped around (for [max_depth >= 2^64 - 41]; below
    [40] bytes even the header does not fit).  The allocation is assumed
    to succeed. *)
Definition c_json_new (max_depth : Z) : CJson :=
  mkCJson None EmptyString None max_depth 0
          (repeat Root (Z.to_nat (alloc_size max_depth - SIZEOF_CJSON))).

(** [c_json_begin_read]; the [assert(!json->input)] precondition is the
    caller's. *)
Definition begin_read (j : CJson) (s : string) : CJson :=
  mkCJson (Some s) (skip_space s) (poison j) (n_states j) (level j) (states j).

(** [c_json_end_read]; the NULL cursor left behind is modelled as the
    empty suffix. *)
Definition end_read (j : CJson) : CJson * option err :=
  let r := match poison j with
           | Some e => Some e
           | None =>
             let r := if 0 <? level j then Some E_INVALID_TYPE else None in
             if (level j =? 0) && negb (ceq (cur (p j)) NUL)
             then Some E_INVALID_JSON else r
           end in
  (mkCJson None EmptyString (poison j) (n_states j) 0 (states j), r).

(** ** c_json_peek *)

Inductive json_type : Type :=
| TYPE_ARRAY | TYPE_OBJECT | TYPE_STRING | TYPE_NUMBER | TYPE_BOOLEAN | TYPE_NULL.

Definition is_digit (c : ascii) : bool :=
  (48 <=? nat_of_ascii c)%nat && (nat_of_ascii c <=? 57)%nat.

(** [None] stands for the return value [-1]. *)
Definition peek (j : CJson) : option json_type :=
  match poison j with
  | Some _ => None
  | None =>
    let c := cur (p j) in
    if ceq c "["%char then Some TYPE_ARRAY
    else if ceq c "{"%char then Some TYPE_OBJECT
    else if ceq c dquote then Some TYPE_STRING
    else if is_digit c || ceq c "-"%char then Some TYPE_NUMBER
    else if ceq c "t"%char || ceq c "f"%char then Some TYPE_BOOLEAN
    else if ceq c "n"%char then Some TYPE_NULL
    else None
  end.

(** ** c_json_more *)

Definition more (j : CJson) : bool :=
  match poison j with
  | Some _ => false
  | None =>
    if ceq (cur (p j)) NUL then false
    else match cur_state j with
         | ArrayAwaitingValue => negb (ceq (cur (p j)) "]"%char)
         | ObjectAwaitingKey | ObjectAfterKey => negb (ceq (cur (p j)) "}"%char)
         | _ => true
         end
  end.

(** ** Scalar readers *)

(** [strncmp(p, lit, strlen(lit)) == 0] *)
Definition lit_at (lit s : string) : bool := String.prefix lit s.

(** [c_json_read_null] *)
Definition read_null (j : CJson) : CJson * (err + unit) :=
  match poison j with
  | Some e => (j, inl e)
  | None =>
    if lvl_eqb (cur_state j) ObjectAwaitingKey then fail j E_INVALID_TYPE
    else if ceq (cur (p j)) "n"%char then
      if negb (lit_at "null" (p j)) then fail j E_INVALID_JSON
      else advance_then (set_p j (advn 4 (p j))) tt
    else fail j E_INVALID_TYPE
  end.

(** [c_json_read_bool]: the object-key check comes before the poison check,
    as in the source. *)
Definition read_bool (j : CJson) : CJson * (err + bool) :=
  if lvl_eqb (cur_state j) ObjectAwaitingKey then fail j E_INVALID_TYPE
  else match poison j with
  | Some e => (j, inl e)
  | None =>
    let c := cur (p j) in
    if ceq c "t"%char then
      if negb (lit_at "true" (p j)) then fail j E_INVALID_JSON
      else advance_then (set_p j (advn 4 (p j))) true
    else if ceq c "f"%char then
      if negb (lit_at "false" (p j)) then fail j E_INVALID_JSON
      else advance_then (set_p j (advn 5 (p j))) false
    else fail j E_INVALID_TYPE
  end.

(** *** strtoul(nptr, &end, 10), glibc, 64-bit [unsigned long]

    Leading [isspace] characters are skipped, then an optional sign, then
    the longest run of decimal digits.  Without a digit no conversion is
    performed and [end] is [nptr].  A magnitude above [ULONG_MAX] gives
    [ULONG_MAX] ([errno = ERANGE]); a [-] sign negates modulo [2^64]. *)

Definition ULONG_MAX : Z := 2 ^ 64 - 1.

Definition is_c_space (c : ascii) : bool :=
  is_ws c || ceq c (ascii_of_nat 11) || ceq c (ascii_of_nat 12).

Fixpoint skip_c_space (s : string) : string :=
  match s with
  | String c t => if is_c_space c then skip_c_space t else s
  | EmptyString => EmptyString
  end.

Definition digit_value (c : ascii) : Z := byte_of c - 48.

(** Accumulates the digit run; the flag records whether a digit was read. *)
Fixpoint digit_run (s : string) (acc : Z) (any : bool) : Z * bool * string :=
  match s with
  | String c t =>
    if is_digit c then digit_run t (acc * 10 + digit_value c) true
    else (acc, any, s)
  | EmptyString => (acc, any, s)
  end.

Definition strtoul (nptr : string) : Z * string :=
  let s1 := skip_c_space nptr in
  let '(neg, s2) :=
    if ceq (cur s1) "-"%char then (true, adv1 s1)
    else if ceq (cur s1) "+"%char then (false, adv1 s1)
    else (false, s1) in
  match digit_run s2 0 false with
  | (_, false, _) => (0, nptr)
  | (v, true, e) =>
    (if ULONG_MAX <? v then ULONG_MAX
     else if neg then (- v) mod 2 ^ 64 else v, e)
  end.

(** [c_json_read_u64]; [end == json->p] is pointer equality of two suffixes
    of the same input, i.e. equality of their lengths. *)
Definition read_u64 (j : CJson) : CJson * (err + Z) :=
  match poison j with
  | Some e => (j, inl e)
  | None =>
    if lvl_eqb (cur_state j) ObjectAwaitingKey then fail j E_INVALID_TYPE
    else if ceq (cur (p j)) "-"%char then fail j E_INVALID_TYPE
    else
      let '(number, end_) := strtoul (p j) in
      if Nat.eqb (String.length end_) (String.length (p j))
         || ceq (cur end_) "."%char || ceq (cur end_) "e"%char
         || ceq (cur end_) "E"%char
      then fail j E_INVALID_TYPE
      else advance_then (set_p j end_) number
  end.

(** *** strtod(nptr, &end) in the "C" locale (glibc), for its end pointer

    [c_json_read_f64] switches [LC_NUMERIC] to "C" around the call, so the
    decimal point is [.] and digits are not grouped.  After [isspace]
    characters and an optional sign the subject sequence is [inf] or
    [infinity], or [nan] optionally followed by a parenthesised
    [n-char-sequence] (letters of either case); or [0x] (or [0X]) and a
    hexadecimal mantissa with an optional binary exponent [p]; or a decimal
    mantissa with an optional exponent [e].  An exponent marker that is not
    followed by digits is left out of it, and [0x] without a hexadecimal
    mantissa is read as [0].  Without a subject sequence [end] is
    [nptr]. *)

Definition to_lower (c : ascii) : ascii :=
  let n := nat_of_ascii c in
  if (65 <=? n)%nat && (n <=? 90)%nat then ascii_of_nat (n + 32) else c.

(** [strncasecmp(s, lit, strlen(lit)) == 0] for a lower-case [lit]. *)
Fixpoint ci_prefix (lit s : string) : bool :=
  match lit, s with
  | EmptyString, _ => true
  | String a l, String c t => ceq (to_lower c) a && ci_prefix l t
  | String _ _, EmptyString => false
  end.

Definition is_xdigit (c : ascii) : bool :=
  let n := nat_of_ascii (to_lower c) in
  is_digit c || ((97 <=? n)%nat && (n <=? 102)%nat).

Definition nan_char (c : ascii) : bool :=
  let n := nat_of_ascii (to_lower c) in
  is_digit c || ((97 <=? n)%nat && (n <=? 122)%nat) || ceq c "_"%char.

(** The longest run of characters satisfying [f]: its length and what
    follows it. *)
Fixpoint skip_while (f : ascii -> bool) (s : string) : nat * string :=
  match s with
  | String c t => if f c then let '(n, r) := skip_while f t in (S n, r) else (O, s)
  | EmptyString => (O, s)
  end.

(** A mantissa: digits, optionally [.] and digits, at least one digit in
    all; what follows it. *)
Definition mantissa (isd : ascii -> bool) (s : string) : option string :=
  let '(n1, t) := skip_while isd s in
  if ceq (cur t) "."%char then
    let '(n2, u) := skip_while isd (adv1 t) in
    if (n1 + n2 =? 0)%nat then None else Some u
  else if (n1 =? 0)%nat then None else Some t.

(** An exponent: the [marker] in either case, an optional sign and
    decimal digits; nothing is taken without a digit. *)
Definition exponent (marker : ascii) (s : string) : string :=
  if ceq (to_lower (cur s)) marker then
    let t := adv1 s in
    let t := if ceq (cur t) "+"%char || ceq (cur t) "-"%char then adv1 t else t in
    if is_digit (cur t) then snd (skip_while is_digit t) else s
  else s.

(** The subject sequence behind the sign: what follows it, if there is
    one. *)
Definition strtod_subject (s : string) : option string :=
  if ci_prefix "inf" s then
    Some (if ci_prefix "inity" (advn 3 s) then advn 8 s else advn 3 s)
  else if ci_prefix "nan" s then
    let t := advn 3 s in
    if ceq (cur t) "("%char then
      let u := snd (skip_while nan_char (adv1 t)) in
      Some (if ceq (cur u) ")"%char then adv1 u else t)
    else Some t
  else if ceq (cur s) "0"%char && ceq (to_lower (cur1 s)) "x"%char then
    match mantissa is_xdigit (advn 2 s) with
    | Some u => Some (exponent "p"%char u)
    | None => Some (adv1 s)
    end
  else match mantissa is_digit s with
       | Some u => Some (exponent "e"%char u)
       | None => None
       end.

Definition strtod_end (nptr : string) : string :=
  let s1 := skip_c_space nptr in
  let s2 := if ceq (cur s1) "-"%char || ceq (cur s1) "+"%char then adv1 s1 else s1 in
  match strtod_subject s2 with
  | Some e => e
  | None => nptr
  end.

(** [c_json_read_f64]; the [double] it stores is [strtod]'s value of the
    text the conversion consumed, and that text (with the white space
    [strtod] skipped) is what is returned here in its place. *)
Definition read_f64 (j : CJson) : CJson * (err + string) :=
  match poison j with
  | Some e => (j, inl e)
  | None =>
    if lvl_eqb (cur_state j) ObjectAwaitingKey then fail j E_INVALID_TYPE
    else
      let end_ := strtod_end (p j) in
      if Nat.eqb (String.length end_) (String.length (p j))
      then fail j E_INVALID_JSON
      else advance_then (set_p j end_)
             (substring 0 (String.length (p j) - String.length end_) (p j))
  end.

(** ** Containers *)

(** [++json->level] and [json->level -= 1] on a [size_t] *)
Definition size_inc (x : Z) : Z := (x + 1) mod SIZE_MOD.
Definition size_dec (x : Z) : Z := (x - 1) mod SIZE_MOD.

(** [json->states[++json->level] = v] *)
Definition push_level (j : CJson) (v : lvl) : CJson :=
  set_state (set_level j (size_inc (level j))) v.

Definition open_array (j : CJson) : CJson * (err + unit) :=
  match poison j with
  | Some e => (j, inl e)
  | None =>
    if lvl_eqb (cur_state j) ObjectAwaitingKey then fail j E_INVALID_TYPE
    else if negb (ceq (cur (p j)) "["%char) then fail j E_INVALID_TYPE
    else if n_states j <=? level j then fail j E_DEPTH_OVERFLOW
    else (push_level (set_p j (skip_space (adv1 (p j)))) ArrayAwaitingValue, inr tt)
  end.

Definition close_array (j : CJson) : CJson * (err + unit) :=
  match poison j with
  | Some e => (j, inl e)
  | None =>
    if negb (lvl_eqb (cur_state j) ArrayAwaitingValue)
       && negb (lvl_eqb (cur_state j) ArrayAfterValue)
    then fail j E_INVALID_TYPE
    else if negb (ceq (cur (p j)) "]"%char) then fail j E_INVALID_JSON
    else advance_then (set_level (set_p j (adv1 (p j))) (size_dec (level j))) tt
  end.

Definition open_object (j : CJson) : CJson * (err + unit) :=
  match poison j with
  | Some e => (j, inl e)
  | None =>
    if lvl_eqb (cur_state j) ObjectAwaitingKey then fail j E_INVALID_TYPE
    else if negb (ceq (cur (p j)) "{"%char) then fail j E_INVALID_TYPE
    else if n_states j <=? level j then fail j E_DEPTH_OVERFLOW
    else
      let j := set_p j (skip_space (adv1 (p j))) in
      if negb (ceq (cur (p j)) dquote) && negb (ceq (cur (p j)) "}"%char)
      then fail j E_INVALID_JSON
      else (push_level j ObjectAwaitingKey, inr tt)
  end.

Definition close_object (j : CJson) : CJson * (err + unit) :=
  match poison j with
  | Some e => (j, inl e)
  | None =>
    if negb (lvl_eqb (cur_state j) ObjectAwaitingKey)
       && negb (lvl_eqb (cur_state j) ObjectAfterKey)
    then fail j E_INVALID_TYPE
    else if negb (ceq (cur (p j)) "}"%char) then fail j E_INVALID_JSON
    else advance_then (set_level (set_p j (adv1 (p j))) (size_dec (level j))) tt
  end.

(** ** String decoding *)

(** One hexadecimal digit of [c_json_read_utf16_unit]. *)
Definition hex_digit (c : ascii) : option Z :=
  let n := nat_of_ascii c in
  if (48 <=? n)%nat && (n <=? 57)%nat then Some (Z.of_nat n - 48)
  else if (97 <=? n)%nat && (n <=? 102)%nat then Some (Z.of_nat n - 97 + 10)
  else if (65 <=? n)%nat && (n <=? 70)%nat then Some (Z.of_nat n - 65 + 10)
  else None.

(** [c_json_read_utf16_unit]: reads [p[0..3]]; a NUL stops it as a non-hex
    character would. *)
Definition read_utf16_unit (s : string) : option Z :=
  match hex_digit (cur s), hex_digit (cur (advn 1 s)),
        hex_digit (cur (advn 2 s)), hex_digit (cur (advn 3 s)) with
  | Some d0, Some d1, Some d2, Some d3 =>
    Some (Z.lor (Z.lor (Z.lor (Z.shiftl d0 12) (Z.shiftl d1 8)) (Z.shiftl d2 4)) d3)
  | _, _, _, _ => None
  end.

(** [fputc((char)v, stream)] writes the byte [v mod 256]. *)
Definition byte (v : Z) : Z := Z.land v 255.

(** [c_json_write_utf8]; the [assert(0)] default is unreachable from
    [c_json_read_string], whose code points are at most [0x10FFFF]. *)
Definition write_utf8 (cp : Z) : list Z :=
  if (0 <=? cp) && (cp <=? 0x7F) then [byte cp]
  else if (0x80 <=? cp) && (cp <=? 0x7FF) then
    [byte (Z.lor 0xc0 (Z.shiftr cp 6)); byte (Z.lor 0x80 (Z.land cp 0x3f))]
  else if (0x800 <=? cp) && (cp <=? 0xFFFF) then
    [byte (Z.lor 0xe0 (Z.shiftr cp 12));
     byte (Z.lor 0x80 (Z.land (Z.shiftr cp 6) 0x3f));
     byte (Z.lor 0x80 (Z.land cp 0x3f))]
  else if (0x10000 <=? cp) && (cp <=? 0x10FFFF) then
    [byte (Z.lor 0xf0 (Z.shiftr cp 18));
     byte (Z.lor 0x80 (Z.land (Z.shiftr cp 12) 0x3f));
     byte (Z.lor 0x80 (Z.land (Z.shiftr cp 6) 0x3f));
     byte (Z.lor 0x80 (Z.land cp 0x3f))]
  else [].

(** The [case 'u'] branch: from the cursor just behind [\u], the decoded
    code point and the cursor after the escape (or the pair of escapes). *)
Definition read_u_escape (s : string) : err + (Z * string) :=
  match read_utf16_unit s with
  | None => inl E_INVALID_JSON
  | Some cu =>
    let s := advn 4 s in
    if (0xD800 <=? cu) && (cu <=? 0xDBFF) then
      let cp := 0x10000 + Z.shiftl (cu - 0xD800) 10 in
      if negb (ceq (cur s) backslash) || negb (ceq (cur1 s) "u"%char)
      then inl E_INVALID_JSON
      else
        let s := advn 2 s in
        match read_utf16_unit s with
        | None => inl E_INVALID_JSON
        | Some cu =>
          let s := advn 4 s in
          if (cu <? 0xDC00) || (0xDFFF <? cu) then inl E_INVALID_JSON
          else inr (cp + (cu - 0xDC00), s)
        end
    else if (0xDC00 <=? cu) && (cu <=? 0xDFFF) then inl E_INVALID_JSON
    else inr (cu, s)
  end.

(** The simple escapes (backslash followed by a double quote, backslash,
    slash, b, f, n, r or t) and the byte each one puts. *)
Definition simple_escape (c : ascii) : option Z :=
  if ceq c dquote then Some 34
  else if ceq c backslash then Some 92
  else if ceq c "/"%char then Some 47
  else if ceq c "b"%char then Some 8
  else if ceq c "f"%char then Some 12
  else if ceq c "n"%char then Some 10
  else if ceq c "r"%char then Some 13
  else if ceq c "t"%char then Some 9
  else None.

(** The main loop of [c_json_read_string], which runs until the cursor
    is at a double quote: the bytes written to the stream so far are [out];
    on exit the cursor is at the closing double quote.  Every iteration consumes at least one character, so
    [String.length s + 1] iterations suffice; [fuel] counts them. *)
Fixpoint string_body (fuel : nat) (s : string) (out : list Z)
  : err + (list Z * string) :=
  match fuel with
  | O => inl E_INVALID_JSON
  | S fuel' =>
    let c := cur s in
    if ceq c dquote then inr (out, s)
    else if (nat_of_ascii c <? 32)%nat then inl E_INVALID_JSON
    else if ceq c backslash then
      let s := adv1 s in
      if ceq (cur s) "u"%char then
        match read_u_escape (adv1 s) with
        | inl e => inl e
        | inr (cp, s') => string_body fuel' s' (out ++ write_utf8 cp)
        end
      else match simple_escape (cur s) with
           | Some b => string_body fuel' (adv1 s) (out ++ [b])
           | None => inl E_INVALID_JSON
           end
    else string_body fuel' (adv1 s) (out ++ [byte_of c])
  end.

(** [c_json_read_string]; the result is the list of bytes of the string.
    On a failure inside the loop the C cursor has moved, which is
    unobservable once the instance is poisoned. *)
Definition read_string (j : CJson) : CJson * (err + list Z) :=
  match poison j with
  | Some e => (j, inl e)
  | None =>
    if negb (ceq (cur (p j)) dquote) then fail j E_INVALID_TYPE
    else
      let s := adv1 (p j) in
      match string_body (S (String.length s)) s [] with
      | inl e => fail j e
      | inr (out, s') => advance_then (set_p j (adv1 s')) out
      end
  end.

(** ** The public interface as one step function *)

Inductive op : Type :=
| Begin (s : string)
| End
| Peek
| More
| ReadNull
| ReadBool
| ReadU64
| ReadString
| OpenArray
| CloseArray
| OpenObject
| CloseObject
| ReadF64.

(** What a call returns: an error code ([None] is [0]), the boolean of
    [c_json_more], the type of [c_json_peek], or nothing. *)
Inductive ret : Type :=
| RCode (r : option err)
| RMore (b : bool)
| RPeek (t : option json_type)
| RVoid.

Definition code {A} (r : err + A) : option err :=
  match r with
  | inl e => Some e
  | inr _ => None
  end.

Definition on_code {A} (x : CJson * (err + A)) : CJson * ret :=
  (fst x, RCode (code (snd x))).

Definition step (j : CJson) (o : op) : CJson * ret :=
  match o with
  | Begin s => (begin_read j s, RVoid)
  | End => let '(j', r) := end_read j in (j', RCode r)
  | Peek => (j, RPeek (peek j))
  | More => (j, RMore (more j))
  | ReadNull => on_code (read_null j)
  | ReadBool => on_code (read_bool j)
  | ReadU64 => on_code (read_u64 j)
  | ReadString => on_code (read_string j)
  | OpenArray => on_code (open_array j)
  | CloseArray => on_code (close_array j)
  | OpenObject => on_code (open_object j)
  | CloseObject => on_code (close_object j)
  | ReadF64 => on_code (read_f64 j)
  end.

Fixpoint exec (j : CJson) (ops : list op) : CJson * list ret :=
  match ops with
  | [] => (j, [])
  | o :: ops' =>
    let '(j1, r) := step j o in
    let '(j2, rs) := exec j1 ops' in
    (j2, r :: rs)
  end.

(** A decoder of depth [max_depth] over [s], at the start of the session. *)
Definition session (max_depth : Z) (s : string) : CJson :=
  begin_read (c_json_new max_depth) s.

(** The one-character string made of a double quote. *)
Definition q : string := String dquote EmptyString.

(** ** Definitions taken from the specification

    These follow the specification's words and are compared with the
    definitions above in the proofs. *)

Definition all_digits (s : string) : bool :=
  forallb is_digit (list_ascii_of_string s).

(** The value of a run of decimal digits. *)
Definition dec_value (s : string) : Z :=
  fold_left (fun acc c => acc * 10 + (byte_of c - 48)) (list_ascii_of_string s) 0.

(** The value of a run of hexadecimal digits (either case); [None] if a
    character is not a hexadecimal digit. *)
Definition hex_value (s : string) : option Z :=
  fold_left (fun acc c => match acc, hex_digit c with
                          | Some a, Some d => Some (a * 16 + d)
                          | _, _ => None
                          end) (list_ascii_of_string s) (Some 0).

(** The code point of a UTF-16 surrogate pair. *)
Definition surrogate_cp (high low : Z) : Z :=
  0x10000 + (high - 0xD800) * 0x400 + (low - 0xDC00).

(** The standard four-byte UTF-8 encoding of a code point in
    [0x10000..0x10FFFF]: [11110xxx 10xxxxxx 10xxxxxx 10xxxxxx]. *)
Definition utf8_4 (cp : Z) : list Z :=
  [0xF0 + cp / 2 ^ 18; 0x80 + (cp / 2 ^ 12) mod 64;
   0x80 + (cp / 2 ^ 6) mod 64; 0x80 + cp mod 64].

(** Test inputs. *)

(** The input [{"a" x}] with the key followed by [x] instead of [:]. *)
Definition latch_input : string := ("{" ++ q ++ "a" ++ q ++ " x}")%string.

(** The input [{"a":1,}] with a trailing comma in an object. *)
Definition object_trailing_comma : string := ("{" ++ q ++ "a" ++ q ++ ":1,}")%string.

(** The literal [2^64]. *)
Definition two_pow_64 : string := "18446744073709551616".

(** [n] opening brackets. *)
Fixpoint brackets (n : nat) : string :=
  match n with
  | O => EmptyString
  | S n' => String "["%char (brackets n')
  end.

(** The invariant of the nesting stack of a decoder of depth [md]. *)
Definition inv (md : Z) (j : CJson) : Prop :=
  n_states j = md /\ length (states j) = (Z.to_nat md + 1)%nat
  /\ 0 <= level j <= md /\ nth 0 (states j) Root = Root.

(** ** Definitions used by the further properties *)

(** Characters skipped by [skip_space] only. *)
Definition ws_only (s : string) : bool := forallb is_ws (list_ascii_of_string s).

(** The bytes of a string, as [fputc] puts them. *)
Definition bytes_of (s : string) : list Z := map byte_of (list_ascii_of_string s).

(** A character that [c_json_read_string] copies as it is: not a double
    quote, not a backslash and not a control character. *)
Definition plain_char (c : ascii) : bool :=
  negb (ceq c dquote) && negb (ceq c backslash) && (32 <=? nat_of_ascii c)%nat.

Definition plain (s : string) : bool := forallb plain_char (list_ascii_of_string s).

(** The lower-case hexadecimal digit of [n < 16]. *)
Definition hex_char (n : nat) : ascii :=
  if (n <? 10)%nat then ascii_of_nat (48 + n) else ascii_of_nat (87 + n).

(** A JSON string encoder: a double quote and a backslash are escaped with
    a backslash, a control character is written as a [\u00XX] escape, and
    every other byte is kept as it is. *)
Definition escape_char (c : ascii) : string :=
  if ceq c dquote then String backslash (String dquote EmptyString)
  else if ceq c backslash then String backslash (String backslash EmptyString)
  else if (nat_of_ascii c <? 32)%nat then
    String backslash (String "u" (String "0" (String "0"
      (String (hex_char (nat_of_ascii c / 16))
        (String (hex_char (nat_of_ascii c mod 16)) EmptyString)))))
  else String c EmptyString.

Fixpoint escape (s : string) : string :=
  match s with
  | EmptyString => EmptyString
  | String c t => escape_char c ++ escape t
  end.

(** A strict decoder of the UTF-8 encoding of one code point: the lead
    byte gives the length, each further byte is [10xxxxxx], and overlong
    forms, surrogates and values above [0x10FFFF] are refused. *)
Definition cont (b : Z) : bool := (0x80 <=? b) && (b <=? 0xBF).

Definition utf8_decode (bs : list Z) : option Z :=
  match bs with
  | [b0] => if (0 <=? b0) && (b0 <=? 0x7F) then Some b0 else None
  | [b0; b1] =>
    let cp := (b0 - 0xC0) * 64 + (b1 - 0x80) in
    if (0xC0 <=? b0) && (b0 <=? 0xDF) && cont b1 && (0x80 <=? cp)
    then Some cp else None
  | [b0; b1; b2] =>
    let cp := (b0 - 0xE0) * 4096 + (b1 - 0x80) * 64 + (b2 - 0x80) in
    if (0xE0 <=? b0) && (b0 <=? 0xEF) && cont b1 && cont b2 && (0x800 <=? cp)
       && negb ((0xD800 <=? cp) && (cp <=? 0xDFFF))
    then Some cp else None
  | [b0; b1; b2; b3] =>
    let cp := (b0 - 0xF0) * 262144 + (b1 - 0x80) * 4096 + (b2 - 0x80) * 64
              + (b3 - 0x80) in
    if (0xF0 <=? b0) && (b0 <=? 0xF7) && cont b1 && cont b2 && cont b3
       && (0x10000 <=? cp) && (cp <=? 0x10FFFF)
    then Some cp else None
  | _ => None
  end.

(** A return value that reports no success: an error code, [false] from
    [c_json_more], [-1] from [c_json_peek], or [c_json_begin_read], which
    returns nothing. *)
Definition no_success (r : ret) : bool :=
  match r with
  | RCode (Some _) | RMore false | RPeek None | RVoid => true
  | _ => false
  end.

(** Strings joined with commas. *)
Fixpoint join_comma (ds : list string) : string :=
  match ds with
  | [] => EmptyString
  | [d] => d
  | d :: t => d ++ String ","%char (join_comma t)
  end.

(** A caller's loop [while (c_json_more(json)) { r = c_json_read_u64(json, &v);
    if (r) return r; ... }] that collects the numbers; [fuel] bounds the
    number of iterations. *)
Fixpoint read_u64_items (fuel : nat) (j : CJson) (acc : list Z)
  : CJson * (err + list Z) :=
  match fuel with
  | O => (j, inr acc)
  | S f =>
    if more j then
      match read_u64 j with
      | (j', inl e) => (j', inl e)
      | (j', inr v) => read_u64_items f j' (acc ++ [v])
      end
    else (j, inr acc)
  end.

(** A caller reading an array of numbers: [c_json_open_array], the loop
    above, [c_json_close_array]. *)
Definition read_u64_array (j : CJson) : CJson * (err + list Z) :=
  match open_array j with
  | (j1, inl e) => (j1, inl e)
  | (j1, inr _) =>
    match read_u64_items (S (String.length (p j1))) j1 [] with
    | (j2, inl e) => (j2, inl e)
    | (j2, inr vs) =>
      match close_array j2 with
      | (j3, inl e) => (j3, inl e)
      | (j3, inr _) => (j3, inr vs)
      end
    end
  end.

(** A decoder inside the object [{k:1}] (with the key quoted), before its key. *)
Definition key_decoder : CJson :=
  fst (open_object (session 1 ("{" ++ q ++ "k" ++ q ++ ":1}")%string)).

(** A number item of [read_u64_array]: a nonempty run of digits whose
    value fits in 64 bits. *)
Definition num_item (d : string) : Prop :=
  d <> EmptyString /\ all_digits d = true /\ dec_value d <= ULONG_MAX.

(** An element of an array text: whitespace, a number item, whitespace. *)
Definition elem_text (e : string * string * string) : string :=
  let '(w1, d, w2) := e in (w1 ++ d ++ w2)%string.

Definition num_elem (e : string * string * string) : Prop :=
  let '(w1, d, w2) := e in ws_only w1 = true /\ num_item d /\ ws_only w2 = true.

Definition elem_value (e : string * string * string) : Z :=
  let '(_, d, _) := e in dec_value d.

(** Three numbers with whitespace around them. *)
Definition small_elems : list (string * string * string) :=
  [(" ", "1", ""); ("", "20", String (ascii_of_nat 10) EmptyString);
   (String (ascii_of_nat 9) EmptyString, "300", String (ascii_of_nat 13) " ")]%string.

(** Two decoders that agree on everything but the stack slots above the
    current level. *)
Definition same_below (j1 j2 : CJson) : Prop :=
  input j1 = input j2 /\ p j1 = p j2 /\ poison j1 = poison j2
  /\ n_states j1 = n_states j2 /\ level j1 = level j2
  /\ length (states j1) = length (states j2)
  /\ (forall i, (i <= Z.to_nat (level j1))%nat ->
        nth i (states j1) Root = nth i (states j2) Root).

(** Two results of a call that return the same value, on decoders that
    agree up to the current level. *)
Definition sb_res {A} (r1 r2 : CJson * A) : Prop :=
  same_below (fst r1) (fst r2) /\ snd r1 = snd r2.

(** The literals read by [c_json_read_null] ([None]) and
    [c_json_read_bool] ([Some b]), their spelling and the call that reads
    each one. *)
Definition lit_text (o : option bool) : string :=
  match o with
  | None => "null"
  | Some true => "true"
  | Some false => "false"
  end.

Definition lit_op (o : option bool) : op :=
  match o with
  | None => ReadNull
  | Some _ => ReadBool
  end.

(** The literals written one after the other, with no separator. *)
Fixpoint lits (ls : list (option bool)) : string :=
  match ls with
  | [] => EmptyString
  | o :: t => lit_text o ++ lits t
  end.

(** * Proofs *)

(** ** Concrete runs *)

Example scenario_object :
  snd (exec (session 2 ("{" ++ q ++ "a" ++ q ++ ":1," ++ q ++ "b" ++ q
                          ++ ":[true,null]}")%string)
        [OpenObject; ReadString; ReadU64; ReadString; OpenArray; ReadBool;
         ReadNull; CloseArray; CloseObject; End])
  = repeat (RCode None) 10.
Proof. vm_compute. reflexivity. Qed.

(** ** Bit arithmetic *)

Lemma lor_low (a b k : Z) :
  0 <= k -> 0 <= b < 2 ^ k -> Z.lor (a * 2 ^ k) b = a * 2 ^ k + b.
Proof.
  intros Hk Hb.
  assert (Hland : Z.land (a * 2 ^ k) b = 0).
  { rewrite <- (Z.mod_small b (2 ^ k)) by lia.
    rewrite <- Z.land_ones by lia.
    rewrite (Z.land_comm b), Z.land_assoc, (Z.land_ones (a * 2 ^ k)) by lia.
    rewrite Z.mod_mul by (apply Z.pow_nonzero; lia).
    apply Z.land_0_l. }
  pose proof (Z.add_lor_land (a * 2 ^ k) b) as E.
  rewrite Hland in E. lia.
Qed.

Lemma byte_small (z : Z) : 0 <= z < 256 -> byte z = z.
Proof.
  intros Hz. unfold byte.
  change 255 with (Z.ones 8).
  rewrite Z.land_ones by lia. apply Z.mod_small. exact Hz.
Qed.

Lemma land_3f (x : Z) : Z.land x 0x3f = x mod 64.
Proof. change 0x3f with (Z.ones 6). rewrite Z.land_ones by lia. reflexivity. Qed.

Lemma lor_80 (y : Z) : 0 <= y < 64 -> Z.lor 0x80 y = 0x80 + y.
Proof.
  intros Hy. change 0x80 with (2 * 2 ^ 6). apply lor_low; lia.
Qed.

Lemma hex_digit_range (c : ascii) (d : Z) : hex_digit c = Some d -> 0 <= d < 16.
Proof.
  unfold hex_digit.
  destruct ((48 <=? nat_of_ascii c)%nat && (nat_of_ascii c <=? 57)%nat) eqn:E1;
    [intros H; injection H as <-; apply andb_prop in E1;
     destruct E1 as [E1 E2]; apply Nat.leb_le in E1, E2; lia|].
  destruct ((97 <=? nat_of_ascii c)%nat && (nat_of_ascii c <=? 102)%nat) eqn:E3;
    [intros H; injection H as <-; apply andb_prop in E3;
     destruct E3 as [E7 E8]; apply Nat.leb_le in E7, E8; lia|].
  destruct ((65 <=? nat_of_ascii c)%nat && (nat_of_ascii c <=? 70)%nat) eqn:E5;
    [intros H; injection H as <-; apply andb_prop in E5;
     destruct E5 as [E7 E8]; apply Nat.leb_le in E7, E8; lia|].
  discriminate.
Qed.

(** The shifts and ors of [c_json_read_utf16_unit] compute the base-16
    value of the four digits. *)
Lemma utf16_combine (d0 d1 d2 d3 : Z) :
  0 <= d0 < 16 -> 0 <= d1 < 16 -> 0 <= d2 < 16 -> 0 <= d3 < 16 ->
  Z.lor (Z.lor (Z.lor (Z.shiftl d0 12) (Z.shiftl d1 8)) (Z.shiftl d2 4)) d3
  = (((0 * 16 + d0) * 16 + d1) * 16 + d2) * 16 + d3.
Proof.
  intros H0 H1 H2 H3.
  rewrite !Z.shiftl_mul_pow2 by lia.
  rewrite lor_low by (cbn; lia).
  replace (d0 * 2 ^ 12 + d1 * 2 ^ 8) with ((d0 * 2 ^ 4 + d1) * 2 ^ 8) by ring.
  rewrite lor_low by (cbn; lia).
  replace ((d0 * 2 ^ 4 + d1) * 2 ^ 8 + d2 * 2 ^ 4)
    with (((d0 * 2 ^ 4 + d1) * 2 ^ 4 + d2) * 2 ^ 4) by ring.
  rewrite lor_low by (cbn; lia).
  cbn. ring.
Qed.

Lemma read_utf16_unit_hex (h rest : string) (v : Z) :
  String.length h = 4%nat -> hex_value h = Some v ->
  read_utf16_unit (h ++ rest) = Some v /\ advn 4 (h ++ rest) = rest
  /\ 0 <= v < 2 ^ 16.
Proof.
  intros Hlen Hv.
  destruct h as [|a [|b [|c [|d [|e t]]]]]; cbn in Hlen; try discriminate.
  unfold hex_value in Hv. cbn in Hv.
  destruct (hex_digit a) as [da|] eqn:Ea; [|discriminate].
  destruct (hex_digit b) as [db|] eqn:Eb; [|discriminate].
  destruct (hex_digit c) as [dc|] eqn:Ec; [|discriminate].
  destruct (hex_digit d) as [dd|] eqn:Ed; [|discriminate].
  injection Hv as <-.
  apply hex_digit_range in Ea as Ra, Eb as Rb, Ec as Rc, Ed as Rd.
  unfold read_utf16_unit. cbn [cur advn adv1 append].
  rewrite Ea, Eb, Ec, Ed.
  rewrite utf16_combine by assumption.
  split; [reflexivity|]. split; [reflexivity|]. cbn. lia.
Qed.

Lemma write_utf8_4 (cp : Z) :
  0x10000 <= cp <= 0x10FFFF -> write_utf8 cp = utf8_4 cp.
Proof.
  intros Hcp. unfold write_utf8, utf8_4.
  replace ((0 <=? cp) && (cp <=? 0x7F)) with false
    by (symmetry; apply andb_false_iff; right; apply Z.leb_gt; lia).
  replace ((0x80 <=? cp) && (cp <=? 0x7FF)) with false
    by (symmetry; apply andb_false_iff; right; apply Z.leb_gt; lia).
  replace ((0x800 <=? cp) && (cp <=? 0xFFFF)) with false
    by (symmetry; apply andb_false_iff; right; apply Z.leb_gt; lia).
  replace ((0x10000 <=? cp) && (cp <=? 0x10FFFF)) with true
    by (symmetry; apply andb_true_iff; split; apply Z.leb_le; lia).
  rewrite !Z.shiftr_div_pow2 by lia. rewrite !land_3f.
  assert (Hd : 0 <= cp / 2 ^ 18 < 2 ^ 4)
    by (split; [apply Z.div_pos; lia | apply Z.div_lt_upper_bound; cbn; lia]).
  pose proof (Z.mod_pos_bound (cp / 2 ^ 12) 64 ltac:(lia)).
  pose proof (Z.mod_pos_bound (cp / 2 ^ 6) 64 ltac:(lia)).
  pose proof (Z.mod_pos_bound cp 64 ltac:(lia)).
  rewrite !lor_80 by lia.
  change 0xf0 with (15 * 2 ^ 4). rewrite lor_low by (try exact Hd; lia).
  change (2 ^ 4) with 16 in Hd.
  rewrite !byte_small by lia.
  reflexivity.
Qed.

(** A well-formed pair of escapes, read from the cursor just behind the
    first [\u]. *)
Lemma read_u_escape_pair (h l rest : string) (hv lv : Z) :
  String.length h = 4%nat -> hex_value h = Some hv ->
  String.length l = 4%nat -> hex_value l = Some lv ->
  0xD800 <= hv <= 0xDBFF -> 0xDC00 <= lv <= 0xDFFF ->
  read_u_escape (h ++ String backslash (String "u" (l ++ rest)))
  = inr (surrogate_cp hv lv, rest).
Proof.
  intros Hh Hhv Hl Hlv Rh Rl.
  destruct (read_utf16_unit_hex h (String backslash (String "u" (l ++ rest))) hv Hh Hhv)
    as [E1 [A1 _]].
  destruct (read_utf16_unit_hex l rest lv Hl Hlv) as [E2 [A2 _]].
  unfold read_u_escape. rewrite E1, A1.
  replace ((0xD800 <=? hv) && (hv <=? 0xDBFF)) with true
    by (symmetry; apply andb_true_iff; split; apply Z.leb_le; lia).
  cbn beta iota zeta delta [cur cur1 adv1 ceq negb orb].
  change (advn 2 (String backslash (String "u" (l ++ rest)%string))) with (l ++ rest)%string.
  change (ceq backslash backslash) with true.
  change (ceq "u"%char "u"%char) with true. cbn [negb orb].
  rewrite E2, A2.
  replace ((lv <? 0xDC00) || (0xDFFF <? lv)) with false
    by (symmetry; apply orb_false_iff; split; apply Z.ltb_ge; lia).
  unfold surrogate_cp. rewrite Z.shiftl_mul_pow2 by lia.
  cbn beta iota. reflexivity.
Qed.

(** ** Surrogate pairs (C7, C8) *)

(** C7: inside a string, a high surrogate escape [\uXXXX]
    ([0xD800..0xDBFF]) immediately followed by a low surrogate escape
    [\uYYYY] ([0xDC00..0xDFFF]) is decoded, wherever it occurs, to the code
    point [0x10000 + (XXXX - 0xD800) * 0x400 + (YYYY - 0xDC00)] and written
    to the output as its standard four-byte UTF-8 encoding; in particular
    the string of the escapes [\uD83D\uDE00] decodes to [F0 9F 98 80],
    the encoding of U+1F600. *)
Theorem surrogate_pair_decodes (h l rest : string) (hv lv : Z) (n : nat)
    (out : list Z) :
  String.length h = 4%nat -> hex_value h = Some hv ->
  String.length l = 4%nat -> hex_value l = Some lv ->
  0xD800 <= hv <= 0xDBFF -> 0xDC00 <= lv <= 0xDFFF ->
  string_body (S n)
    (String backslash (String "u" (h ++ String backslash (String "u" (l ++ rest)))))
    out
  = string_body n rest (out ++ utf8_4 (surrogate_cp hv lv))
  /\ snd (read_string (session 0 (q ++ "\uD83D\uDE00" ++ q)))
     = inr [0xF0; 0x9F; 0x98; 0x80].
Proof.
  intros Hh Hhv Hl Hlv Rh Rl. split; [|vm_compute; reflexivity].
  cbn -[read_u_escape write_utf8 app backslash].
  match goal with
  | |- (if ?b then _ else _) = _ => replace b with false by reflexivity
  end.
  rewrite (read_u_escape_pair h l rest hv lv Hh Hhv Hl Hlv Rh Rl).
  rewrite write_utf8_4 by (unfold surrogate_cp; lia).
  reflexivity.
Qed.

Lemma surrogate_pair_decodes_witness :
  String.length "D83D" = 4%nat /\ hex_value "D83D" = Some 0xD83D
  /\ string_body 2 (String backslash (String "u" ("D83D" ++ String backslash
                      (String "u" ("DE00" ++ q))))) [65]
     = inr ([65; 0xF0; 0x9F; 0x98; 0x80], q).
Proof.
  split; [reflexivity|]. split; [reflexivity|].
  destruct (surrogate_pair_decodes "D83D" "DE00" q 0xD83D 0xDE00 1 [65]
              eq_refl eq_refl eq_refl eq_refl) as [E _]; [lia | lia |].
  rewrite E. vm_compute. reflexivity.
Defined.

Lemma read_utf16_unit_cons (a b c d : ascii) (r : string) :
  read_utf16_unit (String a (String b (String c (String d r))))
  = match hex_digit a, hex_digit b, hex_digit c, hex_digit d with
    | Some d0, Some d1, Some d2, Some d3 =>
      Some (Z.lor (Z.lor (Z.lor (Z.shiftl d0 12) (Z.shiftl d1 8)) (Z.shiftl d2 4)) d3)
    | _, _, _, _ => None
    end.
Proof. reflexivity. Qed.

Lemma read_utf16_unit_inv (r : string) (cu : Z) :
  read_utf16_unit r = Some cu ->
  exists l r', r = (l ++ r')%string /\ String.length l = 4%nat
               /\ hex_value l = Some cu.
Proof.
  intros H.
  destruct r as [|a [|b [|c [|d r']]]];
    try (unfold read_utf16_unit in H; cbn in H;
         repeat (match type of H with
                 | context [hex_digit ?x] => destruct (hex_digit x)
                 end); discriminate H).
  rewrite read_utf16_unit_cons in H.
  destruct (hex_digit a) as [da|] eqn:Ea; [|discriminate].
  destruct (hex_digit b) as [db|] eqn:Eb; [|discriminate].
  destruct (hex_digit c) as [dc|] eqn:Ec; [|discriminate].
  destruct (hex_digit d) as [dd|] eqn:Ed; [|discriminate].
  apply (f_equal (fun o => match o with Some v => v | None => 0 end)) in H.
  cbv beta iota in H. subst cu.
  exists (String a (String b (String c (String d EmptyString)))), r'.
  split; [reflexivity|]. split; [reflexivity|].
  apply hex_digit_range in Ea as Ra, Eb as Rb, Ec as Rc, Ed as Rd.
  rewrite utf16_combine by assumption.
  unfold hex_value. cbn [list_ascii_of_string fold_left].
  rewrite Ea, Eb, Ec, Ed. reflexivity.
Qed.

Lemma cur_cons (s : string) (c : ascii) :
  c <> NUL -> cur s = c -> s = String c (adv1 s).
Proof. destruct s as [|c' t]; cbn; intros Hc E; [congruence | subst; reflexivity]. Qed.

(** A high surrogate escape that is not followed by [\u] and a low
    surrogate. *)
Lemma read_u_escape_unpaired_high (h rest : string) (hv : Z) :
  String.length h = 4%nat -> hex_value h = Some hv -> 0xD800 <= hv <= 0xDBFF ->
  (forall l lv rest', rest = String backslash (String "u" (l ++ rest')) ->
     String.length l = 4%nat -> hex_value l = Some lv -> ~ (0xDC00 <= lv <= 0xDFFF)) ->
  read_u_escape (h ++ rest) = inl E_INVALID_JSON.
Proof.
  intros Hh Hhv Rh Hnot.
  destruct (read_utf16_unit_hex h rest hv Hh Hhv) as [E1 [A1 _]].
  unfold read_u_escape. rewrite E1, A1.
  replace ((0xD800 <=? hv) && (hv <=? 0xDBFF)) with true
    by (symmetry; apply andb_true_iff; split; apply Z.leb_le; lia).
  cbn beta iota zeta.
  destruct (negb (ceq (cur rest) backslash) || negb (ceq (cur1 rest) "u"%char))
    eqn:Ebu; [reflexivity|].
  apply orb_false_iff in Ebu. destruct Ebu as [B U].
  apply negb_false_iff, Ascii.eqb_eq in B, U.
  apply cur_cons in B; [|discriminate].
  unfold cur1 in U. apply cur_cons in U; [|discriminate].
  rewrite U in B. clear U.
  set (r := adv1 (adv1 rest)) in B.
  rewrite B. cbn [advn adv1].
  destruct (read_utf16_unit r) as [cu|] eqn:Er; [|reflexivity].
  destruct ((cu <? 0xDC00) || (0xDFFF <? cu)) eqn:Ecu; [reflexivity|].
  exfalso.
  destruct (read_utf16_unit_inv r cu Er) as [l [r' [Hr [Hl Hlv]]]].
  apply (Hnot l cu r'); [rewrite B, Hr; reflexivity | exact Hl | exact Hlv |].
  apply orb_false_iff in Ecu. destruct Ecu as [E3 E4].
  apply Z.ltb_ge in E3, E4. lia.
Qed.

Lemma read_u_escape_lone_low (l rest : string) (lv : Z) :
  String.length l = 4%nat -> hex_value l = Some lv -> 0xDC00 <= lv <= 0xDFFF ->
  read_u_escape (l ++ rest) = inl E_INVALID_JSON.
Proof.
  intros Hl Hlv Rl.
  destruct (read_utf16_unit_hex l rest lv Hl Hlv) as [E1 [A1 _]].
  unfold read_u_escape. rewrite E1, A1.
  replace ((0xD800 <=? lv) && (lv <=? 0xDBFF)) with false
    by (symmetry; apply andb_false_iff; right; apply Z.leb_gt; lia).
  replace ((0xDC00 <=? lv) && (lv <=? 0xDFFF)) with true
    by (symmetry; apply andb_true_iff; split; apply Z.leb_le; lia).
  reflexivity.
Qed.

(** One iteration of the loop of [c_json_read_string] on a [\u] escape. *)
Lemma string_body_u (s : string) (n : nat) (out : list Z) :
  string_body (S n) (String backslash (String "u" s)) out
  = match read_u_escape s with
    | inl e => inl e
    | inr (cp, s') => string_body n s' (out ++ write_utf8 cp)
    end.
Proof. reflexivity. Qed.

(** C8: [c_json_read_string] fails with [InvalidJson] on an unpaired
    surrogate escape: a high surrogate escape that is not immediately
    followed by [\u] and a low surrogate escape, and a low surrogate escape
    that is not the second half of a pair. *)
Theorem unpaired_surrogate_invalid (h rest : string) (hv : Z) (n : nat)
    (out : list Z) :
  String.length h = 4%nat -> hex_value h = Some hv ->
  ((0xD800 <= hv <= 0xDBFF /\
    (forall l lv rest', rest = String backslash (String "u" (l ++ rest')) ->
       String.length l = 4%nat -> hex_value l = Some lv -> ~ (0xDC00 <= lv <= 0xDFFF)))
   \/ 0xDC00 <= hv <= 0xDFFF) ->
  string_body (S n) (String backslash (String "u" (h ++ rest))) out
  = inl E_INVALID_JSON.
Proof.
  intros Hh Hhv Hcase. rewrite string_body_u.
  destruct Hcase as [[Rh Hnot] | Rl].
  - rewrite (read_u_escape_unpaired_high h rest hv Hh Hhv Rh Hnot). reflexivity.
  - rewrite (read_u_escape_lone_low h rest hv Hh Hhv Rl). reflexivity.
Qed.

Lemma unpaired_surrogate_invalid_witness :
  String.length "D800" = 4%nat /\ hex_value "D800" = Some 0xD800
  /\ string_body 8 (String backslash (String "u" ("D800" ++ q))) []
     = inl E_INVALID_JSON
  /\ snd (read_string (session 0 (q ++ "\uD800" ++ q)))
     = inl E_INVALID_JSON.
Proof.
  split; [reflexivity|]. split; [reflexivity|]. split; [|vm_compute; reflexivity].
  apply (unpaired_surrogate_invalid "D800" q 0xD800 7 [] eq_refl eq_refl).
  left. split; [lia|].
  intros l lv rest' Hr. discriminate Hr.
Defined.

(** ** The error latch (C1) *)

(** Every entry point other than [c_json_read_bool] returns the latched
    error and leaves the instance as it is; [c_json_end_read] also keeps
    the latch while it closes the session. *)
Lemma poison_latched (j : CJson) (e : err) (o : op) :
  poison j = Some e ->
  In o [ReadNull; ReadU64; ReadString; OpenArray; CloseArray; OpenObject;
        CloseObject] ->
  step j o = (j, RCode (Some e)).
Proof.
  intros He Ho.
  destruct o; cbn in Ho; try (exfalso; intuition discriminate);
    unfold step, on_code, read_null, read_u64, read_string, open_array,
      close_array, open_object, close_object; rewrite He; reflexivity.
Qed.

Lemma end_read_latched (j : CJson) (e : err) :
  poison j = Some e -> snd (end_read j) = Some e /\ poison (fst (end_read j)) = Some e.
Proof. intros He. unfold end_read. rewrite He. split; reflexivity. Qed.


(** C1: the latch does not hold for [c_json_read_bool], which tests for an
    object awaiting a key before it tests the latch: after [InvalidJson]
    is latched while the current level awaits a key, [c_json_read_bool]
    returns [InvalidType] and replaces the latched error with it, and every
    later call returns [InvalidType]. *)
Theorem read_bool_overwrites_latch :
  let j := fst (exec (session 1 latch_input) [OpenObject; ReadString]) in
  snd (exec (session 1 latch_input) [OpenObject; ReadString])
    = [RCode None; RCode (Some E_INVALID_JSON)]
  /\ poison j = Some E_INVALID_JSON
  /\ read_bool j = (set_poison j E_INVALID_TYPE, inl E_INVALID_TYPE)
  /\ snd (exec j [ReadBool; ReadNull; ReadU64; End])
     = [RCode (Some E_INVALID_TYPE); RCode (Some E_INVALID_TYPE);
        RCode (Some E_INVALID_TYPE); RCode (Some E_INVALID_TYPE)].
Proof. vm_compute. repeat split. Qed.

(** ** Arrays (C2, C9) *)

(** Below the wrap-around of [alloc_size], [c_json_new(d)] has [d + 1]
    slots. *)
Lemma slots_new (d : Z) :
  0 <= d < SIZE_MOD - SIZEOF_CJSON - 1 ->
  Z.to_nat (alloc_size d - SIZEOF_CJSON) = (Z.to_nat d + 1)%nat.
Proof.
  intros Hd. unfold alloc_size, SIZE_MOD, SIZEOF_CJSON in *.
  rewrite Z.mod_small by lia. lia.
Qed.

Lemma nth_repeat_Root (i n : nat) : nth i (repeat Root n) Root = Root.
Proof.
  revert n. induction i as [|i IH]; intros [|n]; cbn; try reflexivity. apply IH.
Qed.

(** A decoder of depth [d >= 1], written with the successor of a natural
    number so that its first two slots compute. *)
Lemma session_pos (d : Z) (s : string) :
  1 <= d < SIZE_MOD - SIZEOF_CJSON - 1 ->
  exists m : nat, session d s
    = mkCJson (Some s) (skip_space s) None (Z.of_nat (S m)) 0
              (Root :: Root :: repeat Root m).
Proof.
  intros Hd. exists (Z.to_nat d - 1)%nat.
  unfold session, c_json_new, begin_read. cbn [input p poison n_states level states].
  rewrite slots_new by lia.
  replace (Z.of_nat (S (Z.to_nat d - 1))) with d by lia.
  replace (Z.to_nat d + 1)%nat with (S (S (Z.to_nat d - 1))) by lia.
  reflexivity.
Qed.

(** C2, as stated: the decoder accepts [[1,,2]]. *)
Lemma double_comma_accepted_counterexample :
  snd (exec (session 1 "[1,,2]") [OpenArray; ReadU64; ReadU64; CloseArray; End])
  <> repeat (RCode None) 5.
Proof. vm_compute. discriminate. Qed.

(** C2 (amended): the decoder rejects [[1,,2]]: after [c_json_open_array]
    and a [c_json_read_u64] yielding 1, the level is [ArrayAfterValue] with
    the cursor on the second [,]; the next [c_json_read_u64] fails with
    [InvalidType], and [c_json_close_array] and [c_json_end_read] return
    that latched error. *)
Theorem double_comma_rejected (d : Z) :
  1 <= d < SIZE_MOD - SIZEOF_CJSON - 1 ->
  let j1 := fst (open_array (session d "[1,,2]")) in
  snd (read_u64 j1) = inr 1
  /\ cur_state (fst (read_u64 j1)) = ArrayAfterValue
  /\ p (fst (read_u64 j1)) = ",2]"%string
  /\ snd (exec (session d "[1,,2]") [OpenArray; ReadU64; ReadU64; CloseArray; End])
     = [RCode None; RCode None; RCode (Some E_INVALID_TYPE);
        RCode (Some E_INVALID_TYPE); RCode (Some E_INVALID_TYPE)].
Proof.
  intros Hd. destruct (session_pos d "[1,,2]" Hd) as [m ->].
  vm_compute. repeat split.
Qed.

Lemma double_comma_rejected_witness :
  1 <= 3 < SIZE_MOD - SIZEOF_CJSON - 1
  /\ snd (exec (session 3 "[1,,2]") [OpenArray; ReadU64; ReadU64; CloseArray; End])
            = [RCode None; RCode None; RCode (Some E_INVALID_TYPE);
               RCode (Some E_INVALID_TYPE); RCode (Some E_INVALID_TYPE)].
Proof.
  split; [unfold SIZE_MOD, SIZEOF_CJSON; lia|].
  destruct (double_comma_rejected 3 ltac:(unfold SIZE_MOD, SIZEOF_CJSON; lia)) as [_ [_ [_ E]]].
  exact E.
Defined.

Lemma p_set_p (j : CJson) (x : string) : p (set_p j x) = x.
Proof. reflexivity. Qed.

Lemma cur_state_set_p (j : CJson) (x : string) : cur_state (set_p j x) = cur_state j.
Proof. reflexivity. Qed.

(** In an object, a [,] after a value that is followed by [}] is refused
    by [c_json_advance]. *)
Lemma advance_object_trailing_comma (j : CJson) :
  poison j = None -> cur_state j = ObjectAfterKey ->
  cur (skip_space (p j)) = ","%char ->
  cur (skip_space (adv1 (skip_space (p j)))) = "}"%char ->
  snd (advance j) = Some E_INVALID_JSON.
Proof.
  intros Hp Hs Hc Hb. unfold advance. rewrite Hp.
  rewrite cur_state_set_p, Hs, p_set_p, Hc.
  change (ceq ","%char ","%char) with true. cbv zeta iota beta.
  rewrite p_set_p, Hb. reflexivity.
Qed.


(** C9: a single trailing comma is accepted before the closing bracket of
    an array: on [[1,]] the calls [c_json_open_array], [c_json_read_u64]
    (yielding 1), [c_json_close_array] and [c_json_end_read] all succeed,
    [c_json_close_array] being called in state [ArrayAfterValue] with the
    cursor at [']']; objects do not accept it: on [{"a":1,}] the read of
    the value fails with [InvalidJson], and so does [c_json_advance] in
    general at a [,] followed by [}] in an object. *)
Theorem trailing_comma_array_only (d : Z) :
  1 <= d < SIZE_MOD - SIZEOF_CJSON - 1 ->
  let j2 := fst (exec (session d "[1,]") [OpenArray; ReadU64]) in
  snd (exec (session d "[1,]") [OpenArray; ReadU64; CloseArray; End])
    = repeat (RCode None) 4
  /\ snd (read_u64 (fst (open_array (session d "[1,]")))) = inr 1
  /\ cur_state j2 = ArrayAfterValue /\ cur (p j2) = "]"%char
  /\ snd (exec (session d object_trailing_comma)
            [OpenObject; ReadString; ReadU64; CloseObject; End])
     = [RCode None; RCode None; RCode (Some E_INVALID_JSON);
        RCode (Some E_INVALID_JSON); RCode (Some E_INVALID_JSON)]
  /\ (forall j, poison j = None -> cur_state j = ObjectAfterKey ->
        cur (skip_space (p j)) = ","%char ->
        cur (skip_space (adv1 (skip_space (p j)))) = "}"%char ->
        snd (advance j) = Some E_INVALID_JSON).
Proof.
  intros Hd.
  destruct (session_pos d "[1,]" Hd) as [m E1].
  destruct (session_pos d object_trailing_comma Hd) as [m' E2].
  cbv zeta. rewrite E1, E2.
  split; [vm_compute; reflexivity|].
  split; [vm_compute; reflexivity|].
  split; [vm_compute; reflexivity|].
  split; [vm_compute; reflexivity|].
  split; [vm_compute; reflexivity|].
  exact advance_object_trailing_comma.
Qed.

Lemma trailing_comma_array_only_witness :
  1 <= 1 < SIZE_MOD - SIZEOF_CJSON - 1
  /\ snd (exec (session 1 "[1,]") [OpenArray; ReadU64; CloseArray; End])
            = repeat (RCode None) 4.
Proof.
  split; [unfold SIZE_MOD, SIZEOF_CJSON; lia|].
  destruct (trailing_comma_array_only 1 ltac:(unfold SIZE_MOD, SIZEOF_CJSON; lia)) as [E _].
  exact E.
Defined.

(** ** c_json_more (C3) *)

Lemma ceq_true (a b : ascii) : ceq a b = true <-> a = b.
Proof. apply Ascii.eqb_eq. Qed.

Lemma ceq_false (a b : ascii) : ceq a b = false <-> a <> b.
Proof. apply Ascii.eqb_neq. Qed.

(** [c_json_more] leaves the instance unchanged and is true exactly when no error is latched, the cursor is not at the end of the
    input, the cursor is not at [']'] in state [ArrayAwaitingValue], and
    the cursor is not at ['}'] in an object state; in particular it is
    true in [ArrayAfterValue] (cursor behind a [,]) whatever the cursor,
    and at root until the input is exhausted. *)
Theorem more_characterised (j : CJson) :
  fst (step j More) = j /\
  (more j = true <->
   poison j = None /\ cur (p j) <> NUL
   /\ (cur_state j = ArrayAwaitingValue -> cur (p j) <> "]"%char)
   /\ (cur_state j = ObjectAwaitingKey \/ cur_state j = ObjectAfterKey ->
       cur (p j) <> "}"%char)).
Proof.
  split; [reflexivity|].
  unfold more.
  destruct (poison j) as [e|]; [split; [discriminate | intros [H _]; discriminate]|].
  destruct (ceq (cur (p j)) NUL) eqn:En.
  - apply ceq_true in En. split; [discriminate | intros [_ [H _]]; contradiction].
  - apply ceq_false in En.
    destruct (cur_state j).
    + split; [intros _ | reflexivity].
      split; [reflexivity|]. split; [exact En|].
      split; [discriminate | intros [H|H]; discriminate].
    + destruct (ceq (cur (p j)) "]"%char) eqn:Eb; cbn.
      * apply ceq_true in Eb.
        split; [discriminate | intros [_ [_ [H _]]]; exfalso; exact (H eq_refl Eb)].
      * apply ceq_false in Eb.
        split; [intros _ | reflexivity].
        split; [reflexivity|]. split; [exact En|].
        split; [intros _; exact Eb | intros [H|H]; discriminate].
    + split; [intros _ | reflexivity].
      split; [reflexivity|]. split; [exact En|].
      split; [discriminate | intros [H|H]; discriminate].
    + destruct (ceq (cur (p j)) "}"%char) eqn:Eb; cbn.
      * apply ceq_true in Eb.
        split; [discriminate | intros [_ [_ [_ H]]]; exfalso; exact (H (or_introl eq_refl) Eb)].
      * apply ceq_false in Eb.
        split; [intros _ | reflexivity].
        split; [reflexivity|]. split; [exact En|].
        split; [discriminate | intros _; exact Eb].
    + destruct (ceq (cur (p j)) "}"%char) eqn:Eb; cbn.
      * apply ceq_true in Eb.
        split; [discriminate | intros [_ [_ [_ H]]]; exfalso; exact (H (or_intror eq_refl) Eb)].
      * apply ceq_false in Eb.
        split; [intros _ | reflexivity].
        split; [reflexivity|]. split; [exact En|].
        split; [discriminate | intros _; exact Eb].
Qed.

(** C3: [c_json_more] is documented to return false when no value is
    available.  Inside an array behind a [,] (state [ArrayAfterValue]) it
    does not look for [']'], so with the cursor at [']'] (the input [[1,]]
    after its first element) it returns true, while [c_json_peek] finds no
    value and every reader of a value fails: [c_json_read_f64] with
    [InvalidJson], the others with [InvalidType]. *)
Theorem more_true_at_array_end (j : CJson) (rest : string) :
  poison j = None -> cur_state j = ArrayAfterValue -> p j = String "]"%char rest ->
  more j = true /\ peek j = None
  /\ snd (read_null j) = inl E_INVALID_TYPE
  /\ snd (read_bool j) = inl E_INVALID_TYPE
  /\ snd (read_u64 j) = inl E_INVALID_TYPE
  /\ snd (read_f64 j) = inl E_INVALID_JSON
  /\ snd (read_string j) = inl E_INVALID_TYPE
  /\ snd (open_array j) = inl E_INVALID_TYPE
  /\ snd (open_object j) = inl E_INVALID_TYPE.
Proof.
  intros Hp Hs Hpj.
  repeat split;
    unfold more, peek, read_null, read_bool, read_u64, read_f64, read_string,
      open_array, open_object;
    rewrite Hp; try rewrite Hs; rewrite ?Hpj; cbn; try reflexivity.
  - change (is_digit "]"%char) with false. cbn. rewrite Nat.eqb_refl. reflexivity.
  - change (strtod_end (String "]"%char rest)) with (String "]"%char rest).
    cbn [String.length]. rewrite Nat.eqb_refl. reflexivity.
Qed.

Lemma more_true_at_array_end_witness :
  let j := fst (exec (session 1 "[1,]") [OpenArray; ReadU64]) in
  more j = true /\ peek j = None /\ snd (read_u64 j) = inl E_INVALID_TYPE.
Proof.
  cbv zeta.
  destruct (more_true_at_array_end (fst (exec (session 1 "[1,]") [OpenArray; ReadU64]))
              EmptyString ltac:(vm_compute; reflexivity) ltac:(vm_compute; reflexivity)
              ltac:(vm_compute; reflexivity))
    as (H1 & H2 & _ & _ & H5 & _).
  split; [exact H1|]. split; [exact H2 | exact H5].
Defined.

(** ** c_json_read_u64 (C6, C10) *)

Lemma digit_not_space (c : ascii) : is_digit c = true -> is_c_space c = false.
Proof.
  intros Hd. destruct (is_c_space c) eqn:Es; [|reflexivity].
  exfalso. unfold is_c_space, is_ws, ceq in Es.
  repeat (apply orb_true_iff in Es; destruct Es as [Es|Es]);
    apply Ascii.eqb_eq in Es; subst c; discriminate Hd.
Qed.

Lemma digit_not_char (c d : ascii) :
  is_digit c = true -> is_digit d = false -> ceq c d = false.
Proof.
  intros Hc Hd. apply ceq_false. intros ->. congruence.
Qed.

Lemma digit_run_app (ds rest : string) (acc : Z) (any : bool) :
  all_digits ds = true -> is_digit (cur rest) = false ->
  digit_run (ds ++ rest) acc any
  = (fold_left (fun a c => a * 10 + (byte_of c - 48)) (list_ascii_of_string ds) acc,
     match ds with EmptyString => any | _ => true end, rest).
Proof.
  revert acc any.
  induction ds as [|c t IH]; intros acc any Hall Hr.
  - cbn. destruct rest as [|c r]; cbn in *; [reflexivity|]. rewrite Hr. reflexivity.
  - cbn in Hall |- *. apply andb_prop in Hall. destruct Hall as [Hc Ht].
    rewrite Hc. rewrite (IH _ true Ht Hr). unfold digit_value.
    destruct t; reflexivity.
Qed.

Lemma strtoul_digits (ds rest : string) :
  ds <> EmptyString -> all_digits ds = true -> is_digit (cur rest) = false ->
  strtoul (ds ++ rest)
  = (if ULONG_MAX <? dec_value ds then ULONG_MAX else dec_value ds, rest).
Proof.
  intros Hne Hall Hr.
  destruct ds as [|c t]; [contradiction|].
  assert (Hc : is_digit c = true)
    by (cbn in Hall; apply andb_prop in Hall; apply Hall).
  unfold strtoul. cbn [append skip_c_space].
  rewrite (digit_not_space c Hc). cbn [cur adv1].
  rewrite (digit_not_char c "-"%char Hc eq_refl).
  rewrite (digit_not_char c "+"%char Hc eq_refl).
  change (String c (t ++ rest)) with ((String c t) ++ rest)%string.
  rewrite (digit_run_app (String c t) rest 0 false Hall Hr).
  reflexivity.
Qed.

Lemma length_append (s t : string) :
  String.length (s ++ t) = (String.length s + String.length t)%nat.
Proof. induction s as [|c s IH]; cbn; [reflexivity | rewrite IH; reflexivity]. Qed.

(** C6: on a live decoder, [c_json_read_u64] fails with [InvalidType] when
    the cursor is at [-], and when a run of decimal digits is followed by
    [.], [e] or [E]. *)
Theorem read_u64_rejects_non_unsigned (j : CJson) :
  poison j = None ->
  (cur (p j) = "-"%char -> snd (read_u64 j) = inl E_INVALID_TYPE)
  /\ (forall ds rest, p j = (ds ++ rest)%string -> ds <> EmptyString ->
        all_digits ds = true ->
        (cur rest = "."%char \/ cur rest = "e"%char \/ cur rest = "E"%char) ->
        snd (read_u64 j) = inl E_INVALID_TYPE).
Proof.
  intros Hp. unfold read_u64. rewrite Hp.
  destruct (lvl_eqb (cur_state j) ObjectAwaitingKey);
    [split; [reflexivity | intros; reflexivity]|].
  split.
  - intros Hc. rewrite Hc. reflexivity.
  - intros ds rest Hpj Hne Hall Hr.
    assert (Hrd : is_digit (cur rest) = false)
      by (destruct Hr as [E|[E|E]]; rewrite E; reflexivity).
    rewrite Hpj.
    destruct ds as [|c t]; [contradiction|].
    assert (Hc : is_digit c = true)
      by (cbn in Hall; apply andb_prop in Hall; apply Hall).
    change (cur (String c t ++ rest)) with c.
    rewrite (digit_not_char c "-"%char Hc eq_refl).
    rewrite (strtoul_digits (String c t) rest Hne Hall Hrd).
    cbv beta iota zeta.
    destruct (Nat.eqb _ _); [reflexivity|].
    destruct Hr as [E|[E|E]]; rewrite E; reflexivity.
Qed.

Lemma read_u64_rejects_non_unsigned_witness :
  snd (read_u64 (session 0 "12.5")) = inl E_INVALID_TYPE
  /\ snd (read_u64 (session 0 "-3")) = inl E_INVALID_TYPE.
Proof.
  destruct (read_u64_rejects_non_unsigned (session 0 "12.5") eq_refl) as [_ H1].
  destruct (read_u64_rejects_non_unsigned (session 0 "-3") eq_refl) as [H2 _].
  split.
  - apply (H1 "12"%string ".5"%string); [reflexivity | discriminate | reflexivity | left; reflexivity].
  - apply H2. reflexivity.
Defined.

(** C10: [c_json_read_u64] on a decimal literal whose value exceeds
    [2^64 - 1] does not fail: the conversion saturates at [2^64 - 1] and
    its range error is not checked, so the call succeeds with [2^64 - 1]
    whenever the following [c_json_advance] does, e.g. at root. *)
Theorem read_u64_saturates (j : CJson) (ds rest : string) :
  poison j = None -> cur_state j <> ObjectAwaitingKey ->
  p j = (ds ++ rest)%string -> ds <> EmptyString -> all_digits ds = true ->
  is_digit (cur rest) = false ->
  cur rest <> "."%char -> cur rest <> "e"%char -> cur rest <> "E"%char ->
  ULONG_MAX < dec_value ds ->
  read_u64 j = advance_then (set_p j rest) ULONG_MAX
  /\ (cur_state j = Root -> snd (read_u64 j) = inr ULONG_MAX).
Proof.
  intros Hp Hs Hpj Hne Hall Hrd Hdot He HE Hbig.
  assert (Hr : read_u64 j = advance_then (set_p j rest) ULONG_MAX).
  { unfold read_u64. rewrite Hp.
    replace (lvl_eqb (cur_state j) ObjectAwaitingKey) with false
      by (destruct (cur_state j) eqn:E; cbn; try reflexivity; congruence).
    rewrite Hpj.
    destruct ds as [|c t]; [contradiction|].
    assert (Hc : is_digit c = true)
      by (cbn in Hall; apply andb_prop in Hall; apply Hall).
    change (cur (String c t ++ rest)) with c.
    rewrite (digit_not_char c "-"%char Hc eq_refl).
    rewrite (strtoul_digits (String c t) rest Hne Hall Hrd).
    replace (ULONG_MAX <? dec_value (String c t)) with true
      by (symmetry; apply Z.ltb_lt; exact Hbig).
    cbv beta iota zeta.
    rewrite length_append.
    replace (Nat.eqb (String.length rest)
                     (String.length (String c t) + String.length rest))
      with false by (symmetry; apply Nat.eqb_neq; cbn; lia).
    apply ceq_false in Hdot, He, HE. rewrite Hdot, He, HE.
    reflexivity. }
  split; [exact Hr|].
  intros Hroot. rewrite Hr. unfold advance_then, advance.
  rewrite p_set_p. cbn [poison set_p].
  rewrite (cur_state_set_p (set_p j rest)), cur_state_set_p, Hroot.
  cbn [poison set_p] in Hp |- *. unfold set_p. cbn [poison]. rewrite Hp.
  reflexivity.
Qed.


Lemma read_u64_saturates_witness :
  snd (read_u64 (session 0 two_pow_64)) = inr ULONG_MAX
  /\ snd (exec (session 0 two_pow_64) [ReadU64; End]) = [RCode None; RCode None].
Proof.
  split; [|vm_compute; reflexivity].
  apply (read_u64_saturates (session 0 two_pow_64) two_pow_64 EmptyString);
    try reflexivity; try (vm_compute; discriminate).
Defined.

(** ** The nesting stack (C4, C5) *)

Lemma length_list_set (l : list lvl) (i : nat) (v : lvl) :
  length (list_set l i v) = length l.
Proof.
  revert i. induction l as [|x t IH]; intros [|i]; cbn; try reflexivity.
  rewrite IH. reflexivity.
Qed.

Lemma nth_list_set_other (l : list lvl) (i k : nat) (v d : lvl) :
  i <> k -> nth k (list_set l i v) d = nth k l d.
Proof.
  revert i k. induction l as [|x t IH]; intros [|i] [|k] Hik; cbn;
    try reflexivity; try congruence.
  apply IH. congruence.
Qed.

Lemma nth_list_set_same (l : list lvl) (i : nat) (v d : lvl) :
  (i < length l)%nat -> nth i (list_set l i v) d = v.
Proof.
  revert i. induction l as [|x t IH]; intros [|i] Hi; cbn in *; try lia.
  - reflexivity.
  - apply IH. lia.
Qed.


Lemma inv_set_p (md : Z) (j : CJson) (x : string) : inv md j -> inv md (set_p j x).
Proof. exact (fun H => H). Qed.

Lemma inv_set_poison (md : Z) (j : CJson) (e : err) : inv md j -> inv md (set_poison j e).
Proof. exact (fun H => H). Qed.

Lemma inv_root_level (md : Z) (j : CJson) : inv md j -> cur_state j <> Root -> 1 <= level j.
Proof.
  intros (_ & _ & Hl & H0) Hs.
  destruct (Z.eq_dec (level j) 0) as [E|E]; [|lia].
  exfalso. apply Hs. unfold cur_state. rewrite E. exact H0.
Qed.

Lemma inv_set_state (md : Z) (j : CJson) (v : lvl) :
  inv md j -> cur_state j <> Root -> inv md (set_state j v).
Proof.
  intros Hi Hs. pose proof (inv_root_level md j Hi Hs) as H1.
  destruct Hi as (Hn & Hlen & Hl & H0).
  unfold inv, set_state; cbn [n_states states level].
  rewrite length_list_set.
  split; [exact Hn|]. split; [exact Hlen|]. split; [exact Hl|].
  rewrite nth_list_set_other by lia. exact H0.
Qed.

Ltac inv_steps :=
  repeat first
    [ assumption
    | apply inv_set_p
    | apply inv_set_poison
    | apply inv_set_state; [ | rewrite ?cur_state_set_p; assumption ] ].

Lemma inv_advance (md : Z) (j : CJson) : inv md j -> inv md (fst (advance j)).
Proof.
  intros Hi. unfold advance.
  destruct (poison j); [exact Hi|].
  rewrite cur_state_set_p.
  destruct (cur_state j) eqn:Es;
    [cbn [fst]; inv_steps | ..];
    assert (Hs : cur_state j <> Root) by (rewrite Es; discriminate);
    cbv zeta;
    repeat match goal with
           | |- context [if ?b then _ else _] => destruct b
           end; cbn [fst]; inv_steps.
Qed.

Lemma inv_advance_then {A} (md : Z) (j : CJson) (v : A) :
  inv md j -> inv md (fst (advance_then j v)).
Proof.
  intros Hi. unfold advance_then.
  pose proof (inv_advance md j Hi) as H.
  destruct (advance j) as [j' [e|]]; exact H.
Qed.

Lemma inv_push (md : Z) (j : CJson) (v : lvl) :
  md < SIZE_MOD -> inv md j -> level j < n_states j -> inv md (push_level j v).
Proof.
  intros Hmd (Hn & Hlen & Hl & H0) Hlt.
  unfold inv, push_level, set_state, set_level, size_inc, SIZE_MOD in *.
  cbn [n_states states level].
  rewrite Z.mod_small by lia.
  rewrite length_list_set.
  split; [exact Hn|]. split; [exact Hlen|]. split; [lia|].
  rewrite nth_list_set_other by lia. exact H0.
Qed.

Lemma inv_pop (md : Z) (j : CJson) :
  md < SIZE_MOD -> inv md j -> cur_state j <> Root ->
  inv md (set_level j (size_dec (level j))).
Proof.
  intros Hmd Hi Hs. pose proof (inv_root_level md j Hi Hs) as H1.
  destruct Hi as (Hn & Hlen & Hl & H0).
  unfold inv, set_level, size_dec, SIZE_MOD in *; cbn [n_states states level].
  rewrite Z.mod_small by lia.
  split; [exact Hn|]. split; [exact Hlen|]. split; [lia | exact H0].
Qed.

Lemma inv_fail {A} (md : Z) (j : CJson) (e : err) :
  inv md j -> inv md (fst (@fail A j e)).
Proof. exact (fun H => H). Qed.

Ltac inv_op :=
  repeat match goal with
         | |- context [match poison ?j with _ => _ end] => destruct (poison j)
         | |- context [if ?b then _ else _] => let E := fresh "Eb" in destruct b eqn:E
         end;
  cbn [fst];
  repeat first
    [ assumption
    | apply inv_fail
    | apply inv_advance_then
    | apply inv_set_p
    | apply inv_set_poison ].

Lemma inv_read_null (md : Z) (j : CJson) : inv md j -> inv md (fst (read_null j)).
Proof. intros Hi. unfold read_null. inv_op. Qed.

Lemma inv_read_bool (md : Z) (j : CJson) : inv md j -> inv md (fst (read_bool j)).
Proof. intros Hi. unfold read_bool. inv_op. Qed.

Lemma inv_read_u64 (md : Z) (j : CJson) : inv md j -> inv md (fst (read_u64 j)).
Proof.
  intros Hi. unfold read_u64. destruct (poison j); [exact Hi|].
  destruct (strtoul (p j)). inv_op.
Qed.

Lemma inv_read_f64 (md : Z) (j : CJson) : inv md j -> inv md (fst (read_f64 j)).
Proof.
  intros Hi. unfold read_f64. destruct (poison j); [exact Hi|]. cbv zeta. inv_op.
Qed.

Lemma inv_read_string (md : Z) (j : CJson) : inv md j -> inv md (fst (read_string j)).
Proof.
  intros Hi. unfold read_string. destruct (poison j); [exact Hi|].
  destruct (ceq (cur (p j)) dquote); cbn [negb]; [|exact Hi].
  destruct (string_body _ _ _) as [e|[out s']]; inv_op.
Qed.

Lemma inv_open_array (md : Z) (j : CJson) :
  md < SIZE_MOD -> inv md j -> inv md (fst (open_array j)).
Proof.
  intros Hmd Hi. unfold open_array. inv_op.
  apply inv_push; [exact Hmd | apply inv_set_p; exact Hi |].
  cbn. apply Z.leb_gt. assumption.
Qed.

Lemma inv_open_object (md : Z) (j : CJson) :
  md < SIZE_MOD -> inv md j -> inv md (fst (open_object j)).
Proof.
  intros Hmd Hi. unfold open_object. cbv zeta. inv_op.
  apply inv_push; [exact Hmd | apply inv_set_p; exact Hi |].
  cbn. apply Z.leb_gt. assumption.
Qed.

Lemma inv_close_array (md : Z) (j : CJson) :
  md < SIZE_MOD -> inv md j -> inv md (fst (close_array j)).
Proof.
  intros Hmd Hi. unfold close_array. destruct (poison j); [exact Hi|].
  destruct (cur_state j) eqn:Es; cbn [lvl_eqb negb andb]; inv_op;
    apply (inv_pop md (set_p j _) Hmd (inv_set_p md j _ Hi));
    rewrite cur_state_set_p, Es; discriminate.
Qed.

Lemma inv_close_object (md : Z) (j : CJson) :
  md < SIZE_MOD -> inv md j -> inv md (fst (close_object j)).
Proof.
  intros Hmd Hi. unfold close_object. destruct (poison j); [exact Hi|].
  destruct (cur_state j) eqn:Es; cbn [lvl_eqb negb andb]; inv_op;
    apply (inv_pop md (set_p j _) Hmd (inv_set_p md j _ Hi));
    rewrite cur_state_set_p, Es; discriminate.
Qed.

Lemma inv_step (md : Z) (j : CJson) (o : op) :
  0 <= md < SIZE_MOD -> inv md j -> inv md (fst (step j o)).
Proof.
  intros Hmd Hi.
  destruct o; cbn [step on_code fst].
  - exact Hi.
  - destruct Hi as (Hn & Hlen & Hl & H0). unfold inv, end_read.
    cbn [fst n_states states level].
    split; [exact Hn|]. split; [exact Hlen|]. split; [lia | exact H0].
  - exact Hi.
  - exact Hi.
  - apply inv_read_null; exact Hi.
  - apply inv_read_bool; exact Hi.
  - apply inv_read_u64; exact Hi.
  - apply inv_read_string; exact Hi.
  - apply inv_open_array; [lia | exact Hi].
  - apply inv_close_array; [lia | exact Hi].
  - apply inv_open_object; [lia | exact Hi].
  - apply inv_close_object; [lia | exact Hi].
  - apply inv_read_f64; exact Hi.
Qed.

Lemma fst_exec_cons (j : CJson) (o : op) (ops : list op) :
  fst (exec j (o :: ops)) = fst (exec (fst (step j o)) ops).
Proof.
  cbn [exec]. destruct (step j o) as [j1 r]. cbn [fst].
  destruct (exec j1 ops). reflexivity.
Qed.

Lemma inv_exec (md : Z) (j : CJson) (ops : list op) :
  0 <= md < SIZE_MOD -> inv md j -> inv md (fst (exec j ops)).
Proof.
  intros Hmd. revert j. induction ops as [|o ops IH]; intros j Hi; [exact Hi|].
  rewrite fst_exec_cons. apply IH. apply inv_step; assumption.
Qed.

Lemma inv_new (md : Z) :
  0 <= md < SIZE_MOD - SIZEOF_CJSON - 1 -> inv md (c_json_new md).
Proof.
  intros Hmd. unfold inv, c_json_new. cbn [n_states states level].
  rewrite repeat_length, slots_new by exact Hmd.
  split; [reflexivity|]. split; [reflexivity|].
  split; [lia|]. rewrite Nat.add_1_r. reflexivity.
Qed.

(** The length of the state stack never changes. *)
Lemma len_advance (j : CJson) : length (states (fst (advance j))) = length (states j).
Proof.
  unfold advance. destruct (poison j); [reflexivity|]. cbv zeta.
  destruct (cur_state _);
    repeat match goal with
           | |- context [if ?b then _ else _] => destruct b
           end; cbn [fst]; unfold set_p, set_poison, set_state; cbn [states];
    rewrite ?length_list_set; reflexivity.
Qed.

Lemma len_advance_then {A} (j : CJson) (v : A) :
  length (states (fst (advance_then j v))) = length (states j).
Proof.
  unfold advance_then. pose proof (len_advance j) as H.
  destruct (advance j) as [a [e|]]; exact H.
Qed.

Ltac len_op :=
  repeat match goal with
         | |- context [match poison ?j with _ => _ end] => destruct (poison j)
         | |- context [if ?b then _ else _] => destruct b
         end;
  cbn [fst]; rewrite ?len_advance_then;
  unfold fail, push_level, set_p, set_poison, set_level, set_state; cbn [fst states];
  rewrite ?length_list_set; reflexivity.

Lemma len_step (j : CJson) (o : op) :
  length (states (fst (step j o))) = length (states j).
Proof.
  destruct o; cbn [step on_code fst]; try reflexivity.
  - unfold read_null. len_op.
  - unfold read_bool. len_op.
  - unfold read_u64. destruct (poison j); [reflexivity|].
    destruct (strtoul (p j)). len_op.
  - unfold read_string. destruct (poison j); [reflexivity|].
    destruct (ceq (cur (p j)) dquote); cbn [negb]; [|reflexivity].
    destruct (string_body _ _ _) as [e|[out s']]; len_op.
  - unfold open_array. len_op.
  - unfold close_array. len_op.
  - unfold open_object. cbv zeta. len_op.
  - unfold close_object. len_op.
  - unfold read_f64. cbv zeta. len_op.
Qed.

Lemma len_exec (j : CJson) (ops : list op) :
  length (states (fst (exec j ops))) = length (states j).
Proof.
  revert j. induction ops as [|o ops IH]; intros j; [reflexivity|].
  rewrite fst_exec_cons, IH. apply len_step.
Qed.

(** C4 fails for the largest depths: for [max_depth >= 2^64 - 41] the size
    [sizeof( *json) + max_depth + 1] passed to [calloc] wraps around, at
    most the 40-byte header is allocated and the state stack has no slot
    at all; at every state reached from [c_json_begin_read] on, the slot
    [states[level]] that the calls read and write lies outside the
    allocation. *)
Theorem depth_stack_outside_allocation (md : Z) :
  SIZE_MOD - SIZEOF_CJSON - 1 <= md < SIZE_MOD ->
  alloc_size md <= SIZEOF_CJSON /\ states (c_json_new md) = []
  /\ (forall s ops,
        let j := fst (exec (session md s) ops) in
        states j = [] /\ ~ (Z.to_nat (level j) < length (states j))%nat).
Proof.
  intros Hmd.
  assert (Ha : alloc_size md = md + SIZEOF_CJSON + 1 - SIZE_MOD).
  { unfold alloc_size, SIZE_MOD, SIZEOF_CJSON in *.
    rewrite (Z.mod_unique (40 + md + 1) (2 ^ 64) 1 (md + 40 + 1 - 2 ^ 64)); lia. }
  assert (H0 : states (c_json_new md) = []).
  { unfold c_json_new. cbn [states].
    replace (Z.to_nat (alloc_size md - SIZEOF_CJSON)) with 0%nat
      by (rewrite Ha; unfold SIZE_MOD, SIZEOF_CJSON in *; lia).
    reflexivity. }
  split; [rewrite Ha; unfold SIZE_MOD, SIZEOF_CJSON in *; lia|].
  split; [exact H0|].
  intros s ops j.
  assert (Hn : states j = []).
  { apply length_zero_iff_nil. unfold j. rewrite len_exec.
    unfold session, begin_read. cbn [states]. rewrite H0. reflexivity. }
  split; [exact Hn|]. rewrite Hn. cbn [length]. lia.
Qed.

Lemma depth_stack_outside_allocation_witness :
  SIZE_MOD - SIZEOF_CJSON - 1 <= SIZE_MOD - 1 < SIZE_MOD
  /\ alloc_size (SIZE_MOD - 1) = SIZEOF_CJSON
  /\ states (fst (exec (session (SIZE_MOD - 1) "[[]]"%string) [OpenArray; OpenArray])) = []
  /\ level (fst (exec (session (SIZE_MOD - 1) "[[]]"%string) [OpenArray; OpenArray])) = 2.
Proof.
  assert (H : SIZE_MOD - SIZEOF_CJSON - 1 <= SIZE_MOD - 1 < SIZE_MOD)
    by (unfold SIZE_MOD, SIZEOF_CJSON; lia).
  split; [exact H|].
  split; [vm_compute; reflexivity|].
  split; [|vm_compute; reflexivity].
  destruct (depth_stack_outside_allocation (SIZE_MOD - 1) H) as (_ & _ & E).
  exact (proj1 (E "[[]]"%string [OpenArray; OpenArray])).
Defined.

(** Below that wrap-around, whatever sequence of calls is made on a
    decoder created with [c_json_new(max_depth)], the level stays in
    [0..max_depth], slot 0 of the state stack stays [Root], the stack
    keeps its [max_depth + 1] slots, so that [states[level]] and (when
    [level < max_depth]) [states[level + 1]] are within them, and a close
    at root on a live decoder fails with [InvalidType] instead of
    decrementing the level. *)
Theorem depth_invariant (md : Z) (ops : list op) :
  0 <= md < SIZE_MOD - SIZEOF_CJSON - 1 ->
  let j := fst (exec (c_json_new md) ops) in
  0 <= level j <= md /\ nth 0 (states j) Root = Root
  /\ length (states j) = (Z.to_nat md + 1)%nat
  /\ (Z.to_nat (level j) < length (states j))%nat
  /\ (level j < n_states j -> (Z.to_nat (level j + 1) < length (states j))%nat)
  /\ (level j = 0 -> poison j = None ->
      snd (close_array j) = inl E_INVALID_TYPE
      /\ snd (close_object j) = inl E_INVALID_TYPE).
Proof.
  intros Hmd j.
  assert (Hmd' : 0 <= md < SIZE_MOD) by (unfold SIZE_MOD, SIZEOF_CJSON in *; lia).
  destruct (inv_exec md (c_json_new md) ops Hmd' (inv_new md Hmd))
    as (Hn & Hlen & Hl & H0).
  fold j in Hn, Hlen, Hl, H0.
  split; [exact Hl|]. split; [exact H0|]. split; [exact Hlen|].
  split; [rewrite Hlen; lia|].
  split; [intros Hlt; rewrite Hlen; lia|].
  intros Hl0 Hp.
  assert (Hs : cur_state j = Root) by (unfold cur_state; rewrite Hl0; exact H0).
  unfold close_array, close_object. rewrite Hp, Hs. split; reflexivity.
Qed.

Lemma depth_invariant_witness :
  0 <= 2 < SIZE_MOD - SIZEOF_CJSON - 1
  /\ level (fst (exec (c_json_new 2)
                   [Begin "[[1]]"; OpenArray; OpenArray; OpenArray; ReadU64;
                    CloseArray; CloseArray; CloseArray; End])) <= 2.
Proof.
  assert (H : 0 <= 2 < SIZE_MOD - SIZEOF_CJSON - 1) by (unfold SIZE_MOD, SIZEOF_CJSON; lia).
  split; [exact H|].
  destruct (depth_invariant 2 [Begin "[[1]]"; OpenArray; OpenArray; OpenArray; ReadU64;
                               CloseArray; CloseArray; CloseArray; End] H)
    as [[_ E] _].
  exact E.
Defined.

Lemma snd_exec_cons (j : CJson) (o : op) (ops : list op) :
  snd (exec j (o :: ops)) = snd (step j o) :: snd (exec (fst (step j o)) ops).
Proof.
  cbn [exec]. destruct (step j o) as [j1 r]. cbn [fst snd].
  destruct (exec j1 ops). reflexivity.
Qed.

Lemma not_object_key (j : CJson) :
  cur_state j <> ObjectAwaitingKey -> lvl_eqb (cur_state j) ObjectAwaitingKey = false.
Proof. destruct (cur_state j); cbn; congruence. Qed.

Lemma open_array_ok (j : CJson) :
  poison j = None -> cur_state j <> ObjectAwaitingKey -> cur (p j) = "["%char ->
  level j < n_states j ->
  open_array j = (push_level (set_p j (skip_space (adv1 (p j)))) ArrayAwaitingValue, inr tt).
Proof.
  intros Hp Hs Hc Hlt. unfold open_array.
  rewrite Hp, (not_object_key j Hs), Hc.
  replace (n_states j <=? level j) with false by (symmetry; apply Z.leb_gt; exact Hlt).
  reflexivity.
Qed.

Lemma open_array_overflow (j : CJson) :
  poison j = None -> cur_state j <> ObjectAwaitingKey -> cur (p j) = "["%char ->
  n_states j <= level j -> open_array j = fail j E_DEPTH_OVERFLOW.
Proof.
  intros Hp Hs Hc Hle. unfold open_array.
  rewrite Hp, (not_object_key j Hs), Hc.
  replace (n_states j <=? level j) with true by (symmetry; apply Z.leb_le; exact Hle).
  reflexivity.
Qed.

Lemma open_object_cases (j : CJson) :
  poison j = None -> cur_state j <> ObjectAwaitingKey -> cur (p j) = "{"%char ->
  (n_states j <= level j -> snd (open_object j) = inl E_DEPTH_OVERFLOW)
  /\ (level j < n_states j -> snd (open_object j) <> inl E_DEPTH_OVERFLOW).
Proof.
  intros Hp Hs Hc. unfold open_object.
  rewrite Hp, (not_object_key j Hs), Hc. cbn [ceq negb].
  change (Ascii.eqb "{"%char "{"%char) with true. cbn [negb].
  split.
  - intros Hle.
    replace (n_states j <=? level j) with true by (symmetry; apply Z.leb_le; exact Hle).
    reflexivity.
  - intros Hlt.
    replace (n_states j <=? level j) with false by (symmetry; apply Z.leb_gt; exact Hlt).
    cbv zeta. destruct (_ && _); cbn; discriminate.
Qed.

(** Writing a slot and reading it back gives the value written, or the
    [Root] that stands for a slot outside the stack. *)
Lemma nth_list_set_self (l : list lvl) (i : nat) (v : lvl) :
  nth i (list_set l i v) Root = v \/ nth i (list_set l i v) Root = Root.
Proof.
  destruct (Nat.lt_ge_cases i (length l)) as [H|H].
  - left. apply nth_list_set_same. exact H.
  - right. apply nth_overflow. rewrite length_list_set. exact H.
Qed.

(** Opening [k + 1] arrays at [k] levels below the capacity: [k] opens
    succeed and the next one overflows. *)
Lemma nest_open (k : nat) (j : CJson) :
  poison j = None -> 0 <= level j -> level j + Z.of_nat k = n_states j ->
  n_states j < SIZE_MOD -> p j = brackets (S k) ->
  cur_state j <> ObjectAwaitingKey ->
  snd (exec j (repeat OpenArray (S k)))
  = repeat (RCode None) k ++ [RCode (Some E_DEPTH_OVERFLOW)].
Proof.
  revert j. induction k as [|k IH]; intros j Hp Hl0 Hk Hn Hb Hs.
  - cbn [repeat exec step on_code].
    rewrite open_array_overflow by (try rewrite Hb; try reflexivity; try assumption; lia).
    reflexivity.
  - cbn [repeat]. rewrite snd_exec_cons. cbn [step on_code fst snd].
    rewrite open_array_ok by (try rewrite Hb; try reflexivity; try assumption; lia).
    cbn [snd fst code repeat app]. f_equal.
    change (repeat OpenArray (S k)) with (repeat OpenArray (S k)).
    rewrite Hb. cbn [adv1 brackets].
    set (j' := push_level (set_p j (skip_space (brackets (S k)))) ArrayAwaitingValue).
    assert (Hlv : level j' = level j + 1).
    { unfold j', push_level, set_state, set_level, size_inc, SIZE_MOD in *.
      cbn [level]. apply Z.mod_small. lia. }
    assert (Hns : n_states j' = n_states j) by reflexivity.
    apply (IH j').
    + exact Hp.
    + rewrite Hlv. lia.
    + rewrite Hlv, Hns. lia.
    + rewrite Hns. exact Hn.
    + reflexivity.
    + unfold cur_state, j', push_level, set_state, set_level. cbn [states level].
      match goal with
      | |- nth ?i (list_set ?l ?i ?v) Root <> _ =>
          destruct (nth_list_set_self l i v) as [E|E]; rewrite E; discriminate
      end.
Qed.

(** C5: on a live decoder whose level is at most [max_depth] and does not
    await an object key, [c_json_open_array] at ['['] and
    [c_json_open_object] at ['{'] fail with [DepthOverflow] exactly when
    the level equals [max_depth] (and [c_json_open_array] succeeds below
    it); and on [max_depth + 1] opening brackets, a decoder of depth
    [max_depth] opens [max_depth] nested arrays and the next open fails
    with [DepthOverflow]. *)
Theorem open_depth_overflow (j : CJson) :
  poison j = None -> 0 <= level j <= n_states j ->
  cur_state j <> ObjectAwaitingKey ->
  (cur (p j) = "["%char ->
     (snd (open_array j) = inl E_DEPTH_OVERFLOW <-> level j = n_states j)
     /\ (level j < n_states j -> snd (open_array j) = inr tt))
  /\ (cur (p j) = "{"%char ->
     (snd (open_object j) = inl E_DEPTH_OVERFLOW <-> level j = n_states j))
  /\ (forall m : nat, Z.of_nat m < SIZE_MOD ->
        snd (exec (session (Z.of_nat m) (brackets (S m))) (repeat OpenArray (S m)))
        = repeat (RCode None) m ++ [RCode (Some E_DEPTH_OVERFLOW)]).
Proof.
  intros Hp Hl Hs. split; [|split].
  - intros Hc.
    destruct (Z.eq_dec (level j) (n_states j)) as [E|E].
    + rewrite open_array_overflow by (auto; lia).
      split; [split; [intros _; exact E | intros _; reflexivity] | intros H; lia].
    + rewrite open_array_ok by (auto; lia).
      split; [split; [discriminate | intros H; contradiction] | intros _; reflexivity].
  - intros Hc. destruct (open_object_cases j Hp Hs Hc) as [Ho Hu].
    destruct (Z.eq_dec (level j) (n_states j)) as [E|E].
    + split; [intros _; exact E | intros _; apply Ho; lia].
    + split; [intros H; exfalso; exact (Hu ltac:(lia) H) | intros H; contradiction].
  - intros m Hm. apply nest_open.
    + reflexivity.
    + cbn. lia.
    + cbn. lia.
    + exact Hm.
    + cbn. destruct m; reflexivity.
    + unfold session, c_json_new, begin_read, cur_state. cbn [states level].
      rewrite nth_repeat_Root. discriminate.
Qed.

Lemma open_depth_overflow_witness :
  snd (exec (session 3 (brackets 4)) (repeat OpenArray 4))
  = [RCode None; RCode None; RCode None; RCode (Some E_DEPTH_OVERFLOW)].
Proof.
  destruct (open_depth_overflow (session 3 (brackets 4)) eq_refl
              ltac:(cbn; lia) ltac:(vm_compute; discriminate)) as [_ [_ H]].
  exact (H 3%nat ltac:(unfold SIZE_MOD; lia)).
Defined.

(** ** String decoding: escapes and plain text *)

Lemma string_body_escape_char (c : ascii) (f : nat) (r : string) (out : list Z) :
  string_body (S f) (escape_char c ++ r) out = string_body f r (out ++ [byte_of c]).
Proof.
  destruct c as [b0 b1 b2 b3 b4 b5 b6 b7].
  destruct b0, b1, b2, b3, b4, b5, b6, b7; reflexivity.
Qed.

Lemma string_append_assoc (a b c : string) : ((a ++ b) ++ c = a ++ (b ++ c))%string.
Proof. induction a as [|x a IH]; cbn; [reflexivity | rewrite IH; reflexivity]. Qed.

Lemma length_escape (s : string) : (String.length s <= String.length (escape s))%nat.
Proof.
  induction s as [|c t IH]; cbn [escape String.length]; [lia|].
  rewrite length_append.
  assert (1 <= String.length (escape_char c))%nat.
  { unfold escape_char.
    destruct (ceq c dquote), (ceq c backslash), (nat_of_ascii c <? 32)%nat;
      cbn; lia. }
  lia.
Qed.

Lemma string_body_escape (s r : string) (f : nat) (out : list Z) :
  (String.length s < f)%nat ->
  string_body f (escape s ++ String dquote r) out
  = inr (out ++ bytes_of s, String dquote r).
Proof.
  revert f out. induction s as [|c t IH]; intros f out Hf.
  - destruct f as [|f]; [cbn in Hf; lia|].
    cbn [escape append bytes_of list_ascii_of_string map].
    rewrite app_nil_r. reflexivity.
  - destruct f as [|f]; [cbn in Hf; lia|].
    cbn [escape]. rewrite string_append_assoc, string_body_escape_char.
    rewrite IH by (cbn in Hf; lia).
    rewrite <- app_assoc. reflexivity.
Qed.

Lemma string_body_plain (s r : string) (f : nat) (out : list Z) :
  plain s = true -> (String.length s < f)%nat ->
  string_body f (s ++ r) out
  = string_body (f - String.length s) r (out ++ bytes_of s).
Proof.
  revert f out. induction s as [|c t IH]; intros f out Hpl Hf.
  - cbn. rewrite app_nil_r, Nat.sub_0_r. reflexivity.
  - destruct f as [|f]; [cbn in Hf; lia|].
    unfold plain in Hpl. cbn [list_ascii_of_string forallb] in Hpl.
    apply andb_true_iff in Hpl as [Hc Ht].
    unfold plain_char in Hc.
    apply andb_true_iff in Hc as [Hc H32]. apply andb_true_iff in Hc as [Hq Hb].
    apply negb_true_iff in Hq, Hb. apply Nat.leb_le in H32.
    cbn [append string_body cur].
    rewrite Hq, Hb.
    replace (nat_of_ascii c <? 32)%nat with false by (symmetry; apply Nat.ltb_ge; lia).
    cbn [adv1]. rewrite IH by (try exact Ht; cbn in Hf; lia).
    rewrite <- app_assoc. reflexivity.
Qed.

Lemma string_body_control (r : string) (f : nat) (out : list Z) :
  (nat_of_ascii (cur r) < 32)%nat -> string_body (S f) r out = inl E_INVALID_JSON.
Proof.
  intros Hr. cbn [string_body].
  replace (ceq (cur r) dquote) with false.
  - replace (nat_of_ascii (cur r) <? 32)%nat with true by (symmetry; apply Nat.ltb_lt; exact Hr).
    reflexivity.
  - symmetry. apply ceq_false. intros E. rewrite E in Hr. cbn in Hr. lia.
Qed.

Lemma read_string_escape (j : CJson) (s rest : string) :
  poison j = None ->
  p j = String dquote (escape s ++ String dquote rest) ->
  read_string j = advance_then (set_p j rest) (bytes_of s).
Proof.
  intros Hp Hpj. unfold read_string. rewrite Hp, Hpj.
  cbn [cur adv1]. change (negb (ceq dquote dquote)) with false. cbv iota.
  rewrite string_body_escape.
  - reflexivity.
  - rewrite length_append. pose proof (length_escape s). lia.
Qed.

(** [c_json_read_string] decodes what [escape] encodes: on a live decoder
    whose cursor is at a double quote, the escaped text of [s] and a
    closing double quote, it returns the bytes of [s] and continues with
    [c_json_advance] behind the closing quote. *)
Theorem read_string_escape_roundtrip (j : CJson) (s rest : string) :
  poison j = None ->
  p j = String dquote (escape s ++ String dquote rest) ->
  read_string j = advance_then (set_p j rest) (bytes_of s).
Proof. exact (read_string_escape j s rest). Qed.

Lemma read_string_escape_roundtrip_witness :
  poison (session 0 (String dquote (escape ("a" ++ q ++ "\" ++ String (ascii_of_nat 10) EmptyString) ++ q))) = None
  /\ read_string (session 0 (String dquote (escape ("a" ++ q ++ "\" ++ String (ascii_of_nat 10) EmptyString) ++ q)))
     = advance_then (set_p (session 0 (String dquote (escape ("a" ++ q ++ "\" ++ String (ascii_of_nat 10) EmptyString) ++ q))) EmptyString)
                    [97; 34; 92; 10].
Proof.
  split; [reflexivity|].
  apply (read_string_escape_roundtrip _ ("a" ++ q ++ "\" ++ String (ascii_of_nat 10) EmptyString) EmptyString);
    reflexivity.
Defined.

(** [c_json_read_string] refuses an unterminated string and a raw control
    character: on a live decoder whose cursor is at a double quote followed
    by plain text and then the end of the input or a character below
    [0x20], it fails with [InvalidJson]. *)
Theorem read_string_rejects_control (j : CJson) (s rest : string) :
  poison j = None -> plain s = true ->
  p j = String dquote (s ++ rest) ->
  (nat_of_ascii (cur rest) < 32)%nat ->
  read_string j = fail j E_INVALID_JSON.
Proof.
  intros Hp Hpl Hpj Hr. unfold read_string. rewrite Hp, Hpj.
  cbn [cur adv1]. change (negb (ceq dquote dquote)) with false. cbv iota.
  rewrite string_body_plain by (try exact Hpl; rewrite length_append; lia).
  rewrite length_append.
  replace (S (String.length s + String.length rest) - String.length s)%nat
    with (S (String.length rest)) by lia.
  rewrite string_body_control by exact Hr. reflexivity.
Qed.

Lemma read_string_rejects_control_witness :
  snd (read_string (session 0 (q ++ "ab")%string)) = inl E_INVALID_JSON
  /\ snd (read_string (session 0 (q ++ "ab" ++ String (ascii_of_nat 9) q)%string))
     = inl E_INVALID_JSON.
Proof.
  split.
  - rewrite (read_string_rejects_control (session 0 (q ++ "ab")%string) "ab" EmptyString);
      try reflexivity; cbn; lia.
  - rewrite (read_string_rejects_control (session 0 (q ++ "ab" ++ String (ascii_of_nat 9) q)%string)
               "ab" (String (ascii_of_nat 9) q)); try reflexivity; cbn; lia.
Defined.

(** ** UTF-8 output *)

Ltac zbool :=
  repeat match goal with
  | |- context [if ?b then _ else _] =>
      replace b with true
        by (symmetry; unfold cont;
            repeat rewrite ?andb_true_iff, ?negb_true_iff, ?andb_false_iff,
                   ?Z.leb_le, ?Z.leb_gt, ?Z.ltb_lt, ?Z.ltb_ge;
            repeat split; lia)
  | |- context [if ?b then _ else _] =>
      replace b with false
        by (symmetry; unfold cont;
            repeat rewrite ?andb_false_iff, ?andb_true_iff, ?negb_false_iff,
                   ?Z.leb_le, ?Z.leb_gt, ?Z.ltb_lt, ?Z.ltb_ge;
            lia)
  end.

Lemma div64_split (x : Z) : x = 64 * (x / 64) + x mod 64 /\ 0 <= x mod 64 < 64.
Proof. split; [apply Z.div_mod; lia | apply Z.mod_pos_bound; lia]. Qed.

Lemma write_utf8_small (cp : Z) :
  0 <= cp <= 0x7F -> write_utf8 cp = [cp].
Proof.
  intros H. unfold write_utf8. zbool. rewrite byte_small by lia. reflexivity.
Qed.

Lemma write_utf8_2 (cp : Z) :
  0x80 <= cp <= 0x7FF -> write_utf8 cp = [0xC0 + cp / 64; 0x80 + cp mod 64].
Proof.
  intros H. unfold write_utf8. zbool.
  rewrite Z.shiftr_div_pow2 by lia. rewrite land_3f.
  assert (Hd : 0 <= cp / 2 ^ 6 < 2 ^ 5)
    by (split; [apply Z.div_pos; lia | apply Z.div_lt_upper_bound; cbn; lia]).
  pose proof (Z.mod_pos_bound cp 64 ltac:(lia)).
  rewrite lor_80 by lia.
  change 0xc0 with (6 * 2 ^ 5). rewrite lor_low by (try exact Hd; lia).
  change (2 ^ 5) with 32 in Hd. change (2 ^ 6) with 64 in *.
  rewrite !byte_small by lia. reflexivity.
Qed.

Lemma write_utf8_3 (cp : Z) :
  0x800 <= cp <= 0xFFFF ->
  write_utf8 cp = [0xE0 + cp / 4096; 0x80 + (cp / 64) mod 64; 0x80 + cp mod 64].
Proof.
  intros H. unfold write_utf8. zbool.
  rewrite !Z.shiftr_div_pow2 by lia. rewrite !land_3f.
  assert (Hd : 0 <= cp / 2 ^ 12 < 2 ^ 4)
    by (split; [apply Z.div_pos; lia | apply Z.div_lt_upper_bound; cbn; lia]).
  pose proof (Z.mod_pos_bound cp 64 ltac:(lia)).
  pose proof (Z.mod_pos_bound (cp / 2 ^ 6) 64 ltac:(lia)).
  rewrite !lor_80 by lia.
  change 0xe0 with (14 * 2 ^ 4). rewrite lor_low by (try exact Hd; lia).
  change (2 ^ 4) with 16 in Hd. change (2 ^ 12) with 4096 in *.
  change (2 ^ 6) with 64 in *.
  rewrite !byte_small by lia. reflexivity.
Qed.

Lemma write_utf8_roundtrip (cp : Z) :
  0 <= cp <= 0x10FFFF -> ~ (0xD800 <= cp <= 0xDFFF) ->
  utf8_decode (write_utf8 cp) = Some cp
  /\ length (write_utf8 cp)
     = if cp <? 0x80 then 1%nat else if cp <? 0x800 then 2%nat
       else if cp <? 0x10000 then 3%nat else 4%nat.
Proof.
  intros Hcp Hs.
  destruct (div64_split cp) as [E0 R0].
  destruct (div64_split (cp / 64)) as [E1 R1].
  destruct (div64_split (cp / 64 / 64)) as [E2 R2].
  assert (D12 : cp / 4096 = cp / 64 / 64)
    by (rewrite Z.div_div by lia; reflexivity).
  assert (D18 : cp / 2 ^ 18 = cp / 64 / 64 / 64)
    by (rewrite !Z.div_div by lia; reflexivity).
  assert (D12' : cp / 2 ^ 12 = cp / 64 / 64)
    by (rewrite Z.div_div by lia; reflexivity).
  assert (D6 : cp / 2 ^ 6 = cp / 64) by reflexivity.
  assert (Hc3 : 0 <= cp / 64 / 64 / 64) by (apply Z.div_pos; [apply Z.div_pos; [apply Z.div_pos|]|]; lia).
  assert (Hc2 : 0 <= cp / 64 / 64) by (apply Z.div_pos; [apply Z.div_pos|]; lia).
  assert (Hc1 : 0 <= cp / 64) by (apply Z.div_pos; lia).
  destruct (Z_lt_le_dec cp 0x80) as [L1|L1].
  { rewrite write_utf8_small by lia. cbn [utf8_decode length]. zbool.
    split; [reflexivity|]. zbool. reflexivity. }
  destruct (Z_lt_le_dec cp 0x800) as [L2|L2].
  { rewrite write_utf8_2 by lia. cbn [utf8_decode length]. zbool.
    split; [f_equal; lia|]. zbool. reflexivity. }
  destruct (Z_lt_le_dec cp 0x10000) as [L3|L3].
  { rewrite write_utf8_3 by lia. rewrite D12. cbn [utf8_decode length]. zbool.
    split; [f_equal; lia|]. zbool. reflexivity. }
  rewrite write_utf8_4 by lia. unfold utf8_4. rewrite D18, D12', D6.
  cbn [utf8_decode length]. zbool.
  split; [f_equal; lia|]. zbool. reflexivity.
Qed.

(** [c_json_write_utf8] writes the UTF-8 encoding of every Unicode scalar
    value (a code point up to [0x10FFFF] that is not a surrogate): the
    strict decoder [utf8_decode] gives the code point back, and the
    encoding has 1, 2, 3 or 4 bytes for code points below [0x80], [0x800],
    [0x10000] and above. *)
Theorem write_utf8_decodes (cp : Z) :
  0 <= cp <= 0x10FFFF -> ~ (0xD800 <= cp <= 0xDFFF) ->
  utf8_decode (write_utf8 cp) = Some cp
  /\ length (write_utf8 cp)
     = if cp <? 0x80 then 1%nat else if cp <? 0x800 then 2%nat
       else if cp <? 0x10000 then 3%nat else 4%nat.
Proof. exact (write_utf8_roundtrip cp). Qed.

Lemma write_utf8_decodes_witness :
  (0 <= 0x20AC <= 0x10FFFF /\ ~ (0xD800 <= 0x20AC <= 0xDFFF))
  /\ utf8_decode (write_utf8 0x20AC) = Some 0x20AC
  /\ write_utf8 0x20AC = [0xE2; 0x82; 0xAC].
Proof.
  assert (H : 0 <= 0x20AC <= 0x10FFFF /\ ~ (0xD800 <= 0x20AC <= 0xDFFF)) by lia.
  split; [exact H|]. split; [|reflexivity].
  exact (proj1 (write_utf8_decodes 0x20AC (proj1 H) (proj2 H))).
Defined.

(** ** The latch is never cleared *)

Lemma step_poisoned (j : CJson) (e : err) (o : op) :
  poison j = Some e ->
  poison (fst (step j o)) <> None /\ no_success (snd (step j o)) = true.
Proof.
  intros He.
  destruct o;
    try (rewrite (poison_latched j e _ He) by (cbn; tauto);
         cbn [fst snd no_success]; rewrite He; split; [discriminate | reflexivity]).
  - cbn. rewrite He. split; [discriminate | reflexivity].
  - unfold step, end_read. rewrite He. cbn. split; [discriminate | reflexivity].
  - cbn. unfold peek. rewrite He. split; [discriminate | reflexivity].
  - cbn. unfold more. rewrite He. split; [discriminate | reflexivity].
  - unfold step, on_code, read_bool.
    destruct (lvl_eqb (cur_state j) ObjectAwaitingKey); cbn;
      [|rewrite He; cbn]; split.
    all: try (rewrite ?He; cbn; discriminate); reflexivity.
  - unfold step, on_code, read_f64. rewrite He. cbn. rewrite He.
    split; [discriminate | reflexivity].
Qed.

(** Once a call has latched an error, no later call reports a success:
    every later reader, [c_json_open_*], [c_json_close_*] and
    [c_json_end_read] returns an error code, [c_json_more] returns false and
    [c_json_peek] returns [-1], and the latch stays set, also across
    [c_json_end_read] and a new [c_json_begin_read]. *)
Theorem poison_never_cleared (j : CJson) (e : err) (ops : list op) :
  poison j = Some e ->
  forallb no_success (snd (exec j ops)) = true /\ poison (fst (exec j ops)) <> None.
Proof.
  revert j e. induction ops as [|o ops IH]; intros j e He.
  - cbn. rewrite He. split; [reflexivity | discriminate].
  - destruct (step_poisoned j e o He) as [H1 H2].
    destruct (poison (fst (step j o))) as [e'|] eqn:E'; [|contradiction].
    destruct (IH _ e' E') as [H3 H4].
    rewrite snd_exec_cons, fst_exec_cons. cbn [forallb].
    rewrite H2, H3. split; [reflexivity | exact H4].
Qed.

Lemma poison_never_cleared_witness :
  poison (fst (exec (session 1 latch_input) [OpenObject; ReadString]))
    = Some E_INVALID_JSON
  /\ forallb no_success
       (snd (exec (fst (exec (session 1 latch_input) [OpenObject; ReadString]))
                  [End; Begin "1"; ReadU64; More; Peek; End])) = true.
Proof.
  assert (H : poison (fst (exec (session 1 latch_input) [OpenObject; ReadString]))
              = Some E_INVALID_JSON) by (vm_compute; reflexivity).
  split; [exact H|].
  exact (proj1 (poison_never_cleared _ _ [End; Begin "1"; ReadU64; More; Peek; End] H)).
Defined.

(** ** The top level *)

Lemma skip_space_ws (ws s : string) :
  ws_only ws = true -> skip_space (ws ++ s) = skip_space s.
Proof.
  induction ws as [|c t IH]; intros H; [reflexivity|].
  unfold ws_only in H. cbn [list_ascii_of_string forallb] in H.
  apply andb_true_iff in H as [Hc Ht].
  cbn [append skip_space]. rewrite Hc. apply IH. exact Ht.
Qed.

Lemma prefix_nil (s : string) : String.prefix EmptyString s = true.
Proof. destruct s; reflexivity. Qed.

(** At the top level a value may be surrounded by spaces, tabs, line feeds
    and carriage returns; whatever follows the value, the reader itself
    succeeds, and it is [c_json_end_read] that reports anything but
    whitespace after it with [InvalidJson]. *)
Theorem top_level_trailing (d : Z) (ws rest : string) :
  ws_only ws = true ->
  snd (exec (session d (ws ++ "null" ++ rest)) [ReadNull; End])
  = [RCode None;
     RCode (if ceq (cur (skip_space rest)) NUL then None else Some E_INVALID_JSON)].
Proof.
  intros Hws. unfold session, c_json_new, begin_read.
  rewrite skip_space_ws by exact Hws.
  generalize (Z.to_nat (alloc_size d - SIZEOF_CJSON)). intros [|n].
  all: change (skip_space ("null" ++ rest)) with ("null" ++ rest)%string.
  all: cbn -[skip_space]; rewrite prefix_nil; cbn -[skip_space].
  all: generalize (skip_space rest); intros [|c t]; [reflexivity|].
  all: destruct c as [[] [] [] [] [] [] [] []]; reflexivity.
Qed.

Lemma top_level_trailing_witness :
  ws_only (String (ascii_of_nat 10) " ") = true
  /\ snd (exec (session 0 (String (ascii_of_nat 10) " " ++ "null" ++ "x")) [ReadNull; End])
     = [RCode None; RCode (Some E_INVALID_JSON)].
Proof.
  assert (H : ws_only (String (ascii_of_nat 10) " ") = true) by reflexivity.
  split; [exact H|].
  exact (top_level_trailing 0 _ "x" H).
Defined.

(** ** Objects *)

Lemma cur_state_set_state (j : CJson) (v : lvl) :
  (Z.to_nat (level j) < length (states j))%nat -> cur_state (set_state j v) = v.
Proof. intros H. unfold cur_state, set_state. cbn [level states]. apply nth_list_set_same; exact H. Qed.

(** Where an object awaits a key only [c_json_read_string] can succeed:
    [c_json_read_null], [c_json_read_bool], [c_json_read_u64],
    [c_json_open_array] and [c_json_open_object] fail with [InvalidType];
    a key read with [c_json_read_string] must be followed by [:] (after
    whitespace), otherwise the call fails with [InvalidJson], and after it
    the level holds a value. *)
Theorem object_key_protocol (j : CJson) :
  poison j = None -> cur_state j = ObjectAwaitingKey ->
  read_null j = fail j E_INVALID_TYPE /\ read_bool j = fail j E_INVALID_TYPE
  /\ read_u64 j = fail j E_INVALID_TYPE /\ open_array j = fail j E_INVALID_TYPE
  /\ open_object j = fail j E_INVALID_TYPE
  /\ (forall k rest, p j = String dquote (escape k ++ String dquote rest) ->
        (Z.to_nat (level j) < length (states j))%nat ->
        snd (read_string j)
          = (if ceq (cur (skip_space rest)) ":"%char then inr (bytes_of k)
             else inl E_INVALID_JSON)
        /\ (ceq (cur (skip_space rest)) ":"%char = true ->
            cur_state (fst (read_string j)) = ObjectAfterKey)).
Proof.
  intros Hp Hs.
  unfold read_null, read_bool, read_u64, open_array, open_object.
  rewrite Hs, Hp. cbn [lvl_eqb].
  split; [reflexivity|]. split; [reflexivity|]. split; [reflexivity|].
  split; [reflexivity|]. split; [reflexivity|].
  intros k rest Hpj Hlen.
  rewrite (read_string_escape j k rest Hp Hpj).
  unfold advance_then, advance. cbv zeta.
  change (poison (set_p j rest)) with (poison j). rewrite Hp.
  rewrite !cur_state_set_p, Hs, !p_set_p.
  destruct (ceq (cur (skip_space rest)) ":"%char) eqn:E.
  - split; [reflexivity|]. intros _. cbn [fst].
    rewrite cur_state_set_p. apply cur_state_set_state. exact Hlen.
  - split; [reflexivity | discriminate].
Qed.

Lemma object_key_protocol_witness :
  poison key_decoder = None /\ cur_state key_decoder = ObjectAwaitingKey
  /\ snd (read_string key_decoder) = inr [107]
  /\ cur_state (fst (read_string key_decoder)) = ObjectAfterKey.
Proof.
  assert (Hp : poison key_decoder = None) by (vm_compute; reflexivity).
  assert (Hs : cur_state key_decoder = ObjectAwaitingKey) by (vm_compute; reflexivity).
  assert (Hpj : p key_decoder = String dquote (escape "k" ++ String dquote ":1}"))
    by (vm_compute; reflexivity).
  assert (Hl : (Z.to_nat (level key_decoder) < length (states key_decoder))%nat)
    by (vm_compute; lia).
  destruct (object_key_protocol key_decoder Hp Hs) as (_ & _ & _ & _ & _ & H).
  destruct (H "k"%string ":1}"%string Hpj Hl) as [H1 H2].
  split; [exact Hp|]. split; [exact Hs|]. split.
  - rewrite H1. reflexivity.
  - apply H2. reflexivity.
Defined.

(** ** Numbers: what [strtoul] accepts besides digits *)

Lemma read_u64_value (j : CJson) (pre ds rest : string) (v : Z) :
  poison j = None -> cur_state j <> ObjectAwaitingKey ->
  p j = (pre ++ ds ++ rest)%string -> ceq (cur (p j)) "-"%char = false ->
  strtoul (p j) = (v, rest) -> ds <> EmptyString ->
  cur rest <> "."%char -> cur rest <> "e"%char -> cur rest <> "E"%char ->
  read_u64 j = advance_then (set_p j rest) v.
Proof.
  intros Hp Hs Hpj Hm Hst Hne Hdot He HE.
  unfold read_u64. rewrite Hp.
  replace (lvl_eqb (cur_state j) ObjectAwaitingKey) with false
    by (destruct (cur_state j) eqn:E; cbn; try reflexivity; congruence).
  rewrite Hm, Hst. cbv beta iota zeta.
  rewrite Hpj, !length_append.
  replace (Nat.eqb (String.length rest)
                   (String.length pre + (String.length ds + String.length rest)))
    with false by (symmetry; apply Nat.eqb_neq; destruct ds; [contradiction|cbn; lia]).
  apply ceq_false in Hdot, He, HE. rewrite Hdot, He, HE.
  reflexivity.
Qed.

(** [c_json_read_u64] accepts a [+] sign, which [c_json_peek] and JSON
    refuse: on a live decoder outside an object key, with the cursor at
    [+] and a run of digits, [c_json_peek] returns [-1] and
    [c_json_read_u64] succeeds with the (saturated) value of the digits. *)
Theorem read_u64_plus_sign (j : CJson) (ds rest : string) :
  poison j = None -> cur_state j <> ObjectAwaitingKey ->
  p j = String "+"%char (ds ++ rest) -> ds <> EmptyString -> all_digits ds = true ->
  is_digit (cur rest) = false ->
  cur rest <> "."%char -> cur rest <> "e"%char -> cur rest <> "E"%char ->
  peek j = None
  /\ read_u64 j
     = advance_then (set_p j rest)
         (if ULONG_MAX <? dec_value ds then ULONG_MAX else dec_value ds).
Proof.
  intros Hp Hs Hpj Hne Hall Hrd Hdot He HE. split.
  - unfold peek. rewrite Hp, Hpj. reflexivity.
  - apply (read_u64_value j "+" ds rest); try assumption.
    + rewrite Hpj. reflexivity.
    + rewrite Hpj. unfold strtoul. cbn [skip_c_space].
      change (is_c_space "+"%char) with false. cbv iota.
      cbn [cur adv1].
      change (ceq "+"%char "-"%char) with false.
      change (ceq "+"%char "+"%char) with true. cbv iota.
      rewrite (digit_run_app ds rest 0 false Hall Hrd).
      destruct ds as [|c t]; [contradiction|]. reflexivity.
Qed.

Lemma read_u64_plus_sign_witness :
  peek (session 0 "+42") = None
  /\ snd (read_u64 (session 0 "+42")) = inr 42.
Proof.
  destruct (read_u64_plus_sign (session 0 "+42") "42" EmptyString eq_refl
              ltac:(vm_compute; discriminate) eq_refl ltac:(discriminate) eq_refl
              eq_refl ltac:(discriminate) ltac:(discriminate) ltac:(discriminate))
    as [H1 H2].
  split; [exact H1|]. rewrite H2. vm_compute. reflexivity.
Defined.

Lemma c_space_not_minus (c : ascii) : is_c_space c = true -> ceq c "-"%char = false.
Proof. intros H. apply ceq_false. intros ->. discriminate H. Qed.

Lemma c_space_peek (j : CJson) :
  poison j = None -> is_c_space (cur (p j)) = true -> peek j = None.
Proof.
  intros Hp. unfold peek. rewrite Hp. generalize (cur (p j)).
  intros [[] [] [] [] [] [] [] []] H; cbn in H; try discriminate H; reflexivity.
Qed.

(** The [-] test of [c_json_read_u64] looks at the cursor only, while
    [strtoul] first skips C whitespace, which includes the vertical tab and
    the form feed that [skip_space] leaves: with such a character before
    [-] and digits of value [v], [c_json_peek] returns [-1] and
    [c_json_read_u64] succeeds, with [2^64 - v] (for [0 < v <= ULONG_MAX];
    [0] for [v = 0]) or, for [v > ULONG_MAX], with [ULONG_MAX]. *)
Theorem read_u64_space_minus (j : CJson) (c : ascii) (ds rest : string) :
  poison j = None -> cur_state j <> ObjectAwaitingKey -> is_c_space c = true ->
  p j = String c (String "-"%char (ds ++ rest)) -> ds <> EmptyString ->
  all_digits ds = true -> is_digit (cur rest) = false ->
  cur rest <> "."%char -> cur rest <> "e"%char -> cur rest <> "E"%char ->
  peek j = None
  /\ read_u64 j = advance_then (set_p j rest)
                   (if ULONG_MAX <? dec_value ds then ULONG_MAX
                    else (- dec_value ds) mod 2 ^ 64).
Proof.
  intros Hp Hs Hc Hpj Hne Hall Hrd Hdot He HE. split.
  - apply c_space_peek; [exact Hp|]. rewrite Hpj. exact Hc.
  - apply (read_u64_value j (String c "-") ds rest); try assumption.
    + rewrite Hpj. cbn [cur]. apply c_space_not_minus. exact Hc.
    + rewrite Hpj. unfold strtoul. cbn [skip_c_space]. rewrite Hc.
      change (is_c_space "-"%char) with false. cbv iota.
      cbn [cur adv1].
      change (ceq "-"%char "-"%char) with true. cbv iota.
      rewrite (digit_run_app ds rest 0 false Hall Hrd).
      destruct ds as [|d t]; [contradiction|].
      change (fold_left (fun a c0 => a * 10 + (byte_of c0 - 48))
                (list_ascii_of_string (String d t)) 0) with (dec_value (String d t)).
      reflexivity.
Qed.

Lemma read_u64_space_minus_witness :
  peek (session 0 (String (ascii_of_nat 11) "-5")) = None
  /\ snd (read_u64 (session 0 (String (ascii_of_nat 11) "-5"))) = inr (2 ^ 64 - 5).
Proof.
  destruct (read_u64_space_minus (session 0 (String (ascii_of_nat 11) "-5"))
              (ascii_of_nat 11) "5" EmptyString eq_refl
              ltac:(vm_compute; discriminate) eq_refl eq_refl ltac:(discriminate)
              eq_refl eq_refl ltac:(discriminate) ltac:(discriminate) ltac:(discriminate))
    as [H1 H2].
  split; [exact H1|]. rewrite H2. vm_compute. reflexivity.
Defined.

(** ** c_json_peek and the readers *)

Lemma strtoul_moves (s : string) :
  Nat.eqb (String.length (snd (strtoul s))) (String.length s) = false ->
  is_digit (cur s) || ceq (cur s) "+"%char || ceq (cur s) "-"%char
  || is_c_space (cur s) = true.
Proof.
  destruct s as [|c t]; [vm_compute; discriminate|].
  cbn [cur]. destruct (is_c_space c) eqn:Es; [rewrite !orb_true_r; reflexivity|].
  rewrite orb_false_r.
  unfold strtoul. cbn [skip_c_space]. rewrite Es. cbn [cur adv1].
  destruct (ceq c "-"%char) eqn:Em; [rewrite orb_true_r; reflexivity|].
  destruct (ceq c "+"%char) eqn:Ep; [rewrite orb_true_r; reflexivity|].
  cbn [digit_run]. destruct (is_digit c) eqn:Ed; [reflexivity|].
  cbn [snd]. rewrite Nat.eqb_refl. discriminate.
Qed.

Lemma peek_digit (j : CJson) :
  poison j = None -> is_digit (cur (p j)) = true -> peek j = Some TYPE_NUMBER.
Proof.
  intros Hp Hd. unfold peek. rewrite Hp.
  rewrite (digit_not_char _ "["%char Hd eq_refl), (digit_not_char _ "{"%char Hd eq_refl),
          (digit_not_char _ dquote Hd eq_refl), Hd.
  reflexivity.
Qed.

Ltac reader_char :=
  match goal with
  | |- context [if ?b then _ else _] =>
      let E := fresh "E" in destruct b eqn:E; cbn [negb] in *
  end.

(** [c_json_peek] announces the type of every value a reader accepts: on a
    live decoder, a successful [c_json_read_null], [c_json_read_bool],
    [c_json_read_string], [c_json_open_array] or [c_json_open_object] means
    that [c_json_peek] returned the matching type; a successful
    [c_json_read_u64] means that it returned [NUMBER], or that the cursor
    is at a [+] sign or at C whitespace, where it returned [-1]. *)
Theorem peek_agrees_with_readers (j : CJson) :
  poison j = None ->
  (forall u, snd (read_null j) = inr u -> peek j = Some TYPE_NULL)
  /\ (forall b, snd (read_bool j) = inr b -> peek j = Some TYPE_BOOLEAN)
  /\ (forall v, snd (read_string j) = inr v -> peek j = Some TYPE_STRING)
  /\ (forall u, snd (open_array j) = inr u -> peek j = Some TYPE_ARRAY)
  /\ (forall u, snd (open_object j) = inr u -> peek j = Some TYPE_OBJECT)
  /\ (forall v, snd (read_u64 j) = inr v ->
        peek j = Some TYPE_NUMBER \/ cur (p j) = "+"%char
        \/ is_c_space (cur (p j)) = true).
Proof.
  intros Hp.
  repeat split.
  - intros u. unfold read_null, fail. rewrite Hp.
    reader_char; [intros H; discriminate H|].
    reader_char; [|intros H; discriminate H].
    intros _. apply ceq_true in E0. unfold peek. rewrite Hp, E0. reflexivity.
  - intros b. unfold read_bool, fail.
    reader_char; [intros H; discriminate H|]. rewrite Hp.
    reader_char.
    + intros _. apply ceq_true in E0. unfold peek. rewrite Hp, E0. reflexivity.
    + reader_char; [|intros H; discriminate H].
      intros _. apply ceq_true in E1. unfold peek. rewrite Hp, E1. reflexivity.
  - intros v. unfold read_string, fail. rewrite Hp.
    destruct (ceq (cur (p j)) dquote) eqn:E; cbn [negb];
      [|intros H; discriminate H].
    intros _. apply ceq_true in E. unfold peek. rewrite Hp, E. reflexivity.
  - intros u. unfold open_array, fail. rewrite Hp.
    reader_char; [intros H; discriminate H|].
    destruct (ceq (cur (p j)) "["%char) eqn:E1; cbn [negb];
      [|intros H; discriminate H].
    intros _. apply ceq_true in E1. unfold peek. rewrite Hp, E1. reflexivity.
  - intros u. unfold open_object, fail. rewrite Hp.
    reader_char; [intros H; discriminate H|].
    destruct (ceq (cur (p j)) "{"%char) eqn:E1; cbn [negb];
      [|intros H; discriminate H].
    intros _. apply ceq_true in E1. unfold peek. rewrite Hp, E1. reflexivity.
  - intros v. unfold read_u64, fail. rewrite Hp.
    reader_char; [intros H; discriminate H|].
    reader_char; [intros H; discriminate H|].
    destruct (strtoul (p j)) as [n e] eqn:Es.
    destruct (Nat.eqb (String.length e) (String.length (p j))) eqn:El;
      [intros H; discriminate H|].
    intros _.
    pose proof (strtoul_moves (p j)) as Hm. rewrite Es in Hm. cbn [snd] in Hm.
    specialize (Hm El).
    destruct (is_digit (cur (p j))) eqn:Ed.
    + left. apply peek_digit; assumption.
    + right. cbn [orb] in Hm. rewrite E0 in Hm. rewrite orb_false_r in Hm.
      apply orb_true_iff in Hm as [Hm|Hm].
      * left. apply ceq_true. exact Hm.
      * right. exact Hm.
Qed.

Lemma peek_agrees_with_readers_witness :
  peek (session 0 "+7") = None
  /\ (peek (session 0 "+7") = Some TYPE_NUMBER \/ cur (p (session 0 "+7")) = "+"%char
      \/ is_c_space (cur (p (session 0 "+7"))) = true).
Proof.
  split; [reflexivity|].
  destruct (peek_agrees_with_readers (session 0 "+7") eq_refl) as (_ & _ & _ & _ & _ & H).
  apply (H 7). vm_compute. reflexivity.
Defined.

(** ** \u escapes *)

(** [c_json_read_utf16_unit] succeeds exactly on four hexadecimal digits
    (of either case), and then returns their big-endian value, a 16-bit
    unit. *)
Theorem read_utf16_unit_spec (s : string) (v : Z) :
  (read_utf16_unit s = Some v
   <-> exists h r, s = (h ++ r)%string /\ String.length h = 4%nat
                   /\ hex_value h = Some v)
  /\ (read_utf16_unit s = Some v -> 0 <= v < 2 ^ 16).
Proof.
  split; [split|].
  - apply read_utf16_unit_inv.
  - intros (h & r & -> & Hl & Hv). apply (read_utf16_unit_hex h r v Hl Hv).
  - intros H. destruct (read_utf16_unit_inv s v H) as (h & r & -> & Hl & Hv).
    apply (read_utf16_unit_hex h r v Hl Hv).
Qed.

(** A [\u] escape of a code point outside the surrogate range writes the
    UTF-8 encoding of that code point and continues behind the four digits. *)
Theorem u_escape_bmp (h r : string) (hv : Z) (n : nat) (out : list Z) :
  String.length h = 4%nat -> hex_value h = Some hv -> ~ (0xD800 <= hv <= 0xDFFF) ->
  string_body (S n) (String backslash (String "u" (h ++ r))) out
  = string_body n r (out ++ write_utf8 hv)
  /\ utf8_decode (write_utf8 hv) = Some hv.
Proof.
  intros Hl Hv Hs.
  destruct (read_utf16_unit_hex h r hv Hl Hv) as [E1 [A1 B]].
  split.
  - rewrite string_body_u. unfold read_u_escape. rewrite E1, A1.
    zbool. reflexivity.
  - apply (write_utf8_roundtrip hv); [change (2 ^ 16) with 65536 in B; lia | exact Hs].
Qed.

Lemma u_escape_bmp_witness :
  string_body 2 (String backslash (String "u" ("00e9" ++ q))) []
  = inr ([0xC3; 0xA9], q).
Proof.
  destruct (u_escape_bmp "00e9" q 0xE9 1 [] eq_refl eq_refl ltac:(lia)) as [H _].
  rewrite H. reflexivity.
Defined.

(** ** Reading an array of numbers *)

Lemma skip_space_digit (s : string) : is_digit (cur s) = true -> skip_space s = s.
Proof.
  destruct s as [|c t]; [reflexivity|]. cbn [cur skip_space]. intros Hd.
  pose proof (digit_not_space c Hd) as Hs. unfold is_c_space in Hs.
  apply orb_false_iff in Hs as [Hs _]. apply orb_false_iff in Hs as [Hs _].
  rewrite Hs. reflexivity.
Qed.

Lemma num_item_head (d rest : string) :
  num_item d -> is_digit (cur (d ++ rest)) = true.
Proof.
  intros (Hne & Hall & _). destruct d as [|c t]; [contradiction|].
  cbn in Hall |- *. apply andb_prop in Hall. apply Hall.
Qed.

Lemma join_comma_cons (d : string) (t : list string) (y : string) :
  (join_comma (d :: t) ++ y)%string
  = (d ++ match t with
          | [] => y
          | _ => String ","%char (join_comma t ++ y)
          end)%string.
Proof.
  destruct t as [|d' t]; cbn [join_comma]; [reflexivity|].
  rewrite string_append_assoc. reflexivity.
Qed.

Lemma length_join_comma (ds : list string) (y : string) :
  Forall (fun s => s <> EmptyString) ds -> (length ds <= String.length (join_comma ds ++ y))%nat.
Proof.
  revert y. induction ds as [|d t IH]; intros y Hf; [cbn; lia|].
  inversion Hf as [|? ? Hne Ht]; subst.
  rewrite join_comma_cons, length_append.
  assert (1 <= String.length d)%nat by (destruct d; [contradiction | cbn; lia]).
  destruct t as [|d' t'].
  - cbn. lia.
  - cbn [String.length]. specialize (IH y Ht). cbn [length] in *. lia.
Qed.

Lemma elem_texts_nonempty (es : list (string * string * string)) :
  Forall num_elem es -> Forall (fun s => s <> EmptyString) (map elem_text es).
Proof.
  induction 1 as [|[[w1 d] w2] t (_ & (Hne & _) & _) _ IH]; constructor; [|exact IH].
  cbn. destruct w1; [destruct d; [contradiction|discriminate] | discriminate].
Qed.

Lemma ws_then_delim (w x : string) :
  ws_only w = true -> (cur x = "]"%char \/ cur x = ","%char) ->
  is_digit (cur (w ++ x)) = false /\ cur (w ++ x) <> "."%char
  /\ cur (w ++ x) <> "e"%char /\ cur (w ++ x) <> "E"%char.
Proof.
  intros Hw Hx. destruct w as [|c t].
  - cbn [append]. destruct Hx as [Hx|Hx]; rewrite Hx; repeat split; try reflexivity; discriminate.
  - unfold ws_only in Hw. cbn [list_ascii_of_string forallb] in Hw.
    apply andb_true_iff in Hw as [Hc _]. cbn [append cur]. clear - Hc.
    destruct c as [[] [] [] [] [] [] [] []]; cbn in Hc; try discriminate;
      repeat split; try reflexivity; discriminate.
Qed.

Lemma nth_set_state_other (j : CJson) (v : lvl) (i : nat) :
  i <> Z.to_nat (level j) -> nth i (states (set_state j v)) Root = nth i (states j) Root.
Proof. intros H. unfold set_state. cbn [states]. apply nth_list_set_other. lia. Qed.

Lemma length_skip_join (es : list (string * string * string)) (y : string) :
  Forall num_elem es ->
  (length es <= String.length (skip_space (join_comma (map elem_text es) ++ y)))%nat.
Proof.
  intros Hf. destruct Hf as [|[[w1 d] w2] t He Ht]; [cbn; lia|].
  destruct He as (Hw1 & Hd & _).
  assert (1 <= String.length d)%nat
    by (destruct Hd as (Hne & _); destruct d; [contradiction | cbn; lia]).
  destruct t as [|e' t'].
  - cbn [map join_comma elem_text]. rewrite !string_append_assoc.
    rewrite (skip_space_ws w1 _ Hw1), skip_space_digit by (apply num_item_head; exact Hd).
    rewrite !length_append. cbn [length]. lia.
  - cbn [map]. rewrite join_comma_cons. cbv iota. cbn [elem_text].
    rewrite !string_append_assoc.
    rewrite (skip_space_ws w1 _ Hw1), skip_space_digit by (apply num_item_head; exact Hd).
    pose proof (length_join_comma (elem_text e' :: map elem_text t') y
                  (elem_texts_nonempty (e' :: t') Ht)) as Hl.
    cbn [length] in Hl |- *. rewrite length_map in Hl.
    rewrite !length_append. cbn [String.length]. lia.
Qed.

Lemma read_u64_item (j : CJson) (d x : string) :
  poison j = None -> cur_state j <> ObjectAwaitingKey -> num_item d ->
  p j = (d ++ x)%string -> is_digit (cur x) = false ->
  cur x <> "."%char -> cur x <> "e"%char -> cur x <> "E"%char ->
  read_u64 j = advance_then (set_p j x) (dec_value d).
Proof.
  intros Hp Hs Hd Hpj Hxd Hdot He HE.
  destruct Hd as (Hne & Hall & Hv) eqn:Hd'.
  rewrite (read_u64_value j EmptyString d x (dec_value d)); try assumption.
  - reflexivity.
  - apply (digit_not_char _ "-"%char); [rewrite Hpj; apply (num_item_head d x Hd) | reflexivity].
  - rewrite Hpj, (strtoul_digits d x Hne Hall Hxd).
    replace (ULONG_MAX <? dec_value d) with false by (symmetry; apply Z.ltb_ge; exact Hv).
    reflexivity.
Qed.

Ltac chars :=
  cbn [skip_space cur negb];
  repeat match goal with
         | |- context [ceq ?a ?b] =>
             (change (ceq a b) with true || change (ceq a b) with false)
         | |- context [is_ws ?a] =>
             (change (is_ws a) with true || change (is_ws a) with false)
         end;
  cbv iota; cbn [negb].

Ltac loop_ih IH f acc v :=
  match goal with
  | |- context [read_u64_items f ?J (acc ++ [v])] =>
      destruct (IH f J (acc ++ [v])) as (j' & H1 & H2 & H3 & H4 & H5 & H6 & H7)
  end.

Lemma items_loop (es : list (string * string * string)) (rest : string) :
  Forall num_elem es ->
  forall (f : nat) (j : CJson) (acc : list Z),
  poison j = None -> (Z.to_nat (level j) < length (states j))%nat ->
  (cur_state j = ArrayAwaitingValue \/ (cur_state j = ArrayAfterValue /\ es <> [])) ->
  p j = skip_space (join_comma (map elem_text es) ++ String "]"%char rest) ->
  (length es < f)%nat ->
  exists j', read_u64_items f j acc = (j', inr (acc ++ map elem_value es))
    /\ poison j' = None /\ cur_state j' = ArrayAwaitingValue
    /\ p j' = String "]"%char rest /\ level j' = level j
    /\ length (states j') = length (states j)
    /\ (forall i, i <> Z.to_nat (level j) -> nth i (states j') Root = nth i (states j) Root).
Proof.
  induction 1 as [|[[w1 d] w2] t He Ht IH]; intros f j acc Hp Hlen Hs Hpj Hf.
  - destruct f as [|f]; [cbn in Hf; lia|].
    destruct Hs as [Hs|[_ Hs]]; [|contradiction].
    change (p j = String "]"%char rest) in Hpj.
    exists j. cbn [read_u64_items].
    unfold more. rewrite Hp, Hpj, Hs. cbn [cur].
    change (ceq "]"%char NUL) with false. change (ceq "]"%char "]"%char) with true.
    cbv iota. cbn [negb]. rewrite app_nil_r.
    repeat split; auto.
  - destruct f as [|f]; [cbn in Hf; lia|].
    destruct He as (Hw1 & Hd & Hw2).
    cbn [map] in Hpj. rewrite join_comma_cons in Hpj.
    set (x := match map elem_text t with
              | [] => String "]"%char rest
              | _ => String ","%char (join_comma (map elem_text t) ++ String "]"%char rest)
              end) in Hpj.
    cbn [elem_text] in Hpj. rewrite !string_append_assoc in Hpj.
    rewrite (skip_space_ws w1 _ Hw1) in Hpj.
    rewrite skip_space_digit in Hpj by (apply num_item_head; exact Hd).
    assert (Hhd : is_digit (cur (p j)) = true) by (rewrite Hpj; apply num_item_head; exact Hd).
    assert (Hs' : cur_state j <> ObjectAwaitingKey) by (destruct Hs as [E|[E _]]; rewrite E; discriminate).
    assert (Hmore : more j = true).
    { unfold more. rewrite Hp.
      rewrite (digit_not_char _ NUL Hhd eq_refl).
      destruct Hs as [E|[E _]]; rewrite E; [|reflexivity].
      rewrite (digit_not_char _ "]"%char Hhd eq_refl). reflexivity. }
    assert (Hx : cur x = "]"%char \/ cur x = ","%char)
      by (unfold x; destruct t; [left | right]; reflexivity).
    destruct (ws_then_delim w2 x Hw2 Hx) as (Hxd & Hdot & He & HE).
    cbn [read_u64_items]. rewrite Hmore.
    rewrite (read_u64_item j d (w2 ++ x) Hp Hs' Hd Hpj Hxd Hdot He HE).
    unfold advance_then, advance. cbv zeta.
    change (poison (set_p j (w2 ++ x))) with (poison j). rewrite Hp.
    rewrite !cur_state_set_p, !p_set_p.
    rewrite (skip_space_ws w2 x Hw2).
    cbn [map elem_value].
    destruct t as [|e' t'].
    + (* last element: the cursor is at the closing bracket *)
      subst x. destruct Hs as [E|[E _]]; rewrite E; chars.
      * loop_ih IH f acc (dec_value d); try assumption; try reflexivity.
        -- left. rewrite !cur_state_set_p. exact E.
        -- cbn in Hf |- *. lia.
        -- exists j'. rewrite H1, <- app_assoc. split; [reflexivity|].
           repeat split; auto.
      * loop_ih IH f acc (dec_value d).
        -- exact Hp.
        -- unfold set_state. cbn [level states]. rewrite length_list_set. exact Hlen.
        -- left. apply cur_state_set_state. exact Hlen.
        -- reflexivity.
        -- cbn in Hf |- *. lia.
        -- exists j'. rewrite H1, <- app_assoc. split; [reflexivity|].
           split; [exact H2|]. split; [exact H3|]. split; [exact H4|].
           split; [exact H5|].
           split; [rewrite H6; unfold set_state; cbn; apply length_list_set|].
           intros i Hi. rewrite (H7 i Hi). rewrite nth_set_state_other by exact Hi.
           reflexivity.
    + (* a comma: the next element follows *)
      subst x. cbn [map]. chars.
      destruct Hs as [E|[E _]]; rewrite E; chars.
      * loop_ih IH f acc (dec_value d).
        -- exact Hp.
        -- unfold set_state, set_p. cbn [level states]. rewrite length_list_set. exact Hlen.
        -- right. split; [|discriminate].
           rewrite cur_state_set_p. apply cur_state_set_state. exact Hlen.
        -- reflexivity.
        -- cbn in Hf |- *. lia.
        -- exists j'. rewrite H1, <- app_assoc. split; [reflexivity|].
           split; [exact H2|]. split; [exact H3|]. split; [exact H4|].
           split; [exact H5|].
           split; [rewrite H6; unfold set_state, set_p; cbn; apply length_list_set|].
           intros i Hi. rewrite (H7 i Hi).
           change (nth i (states (set_state (set_p (set_p j (w2 ++ String ","%char
                     (join_comma (elem_text e' :: map elem_text t') ++ String "]"%char rest)))
                     (String ","%char (join_comma (elem_text e' :: map elem_text t')
                     ++ String "]"%char rest))) ArrayAfterValue)) Root
                   = nth i (states j) Root).
           rewrite nth_set_state_other by exact Hi. reflexivity.
      * loop_ih IH f acc (dec_value d); try assumption; try reflexivity.
        -- right. split; [rewrite !cur_state_set_p; exact E | discriminate].
        -- cbn in Hf |- *. lia.
        -- exists j'. rewrite H1, <- app_assoc. split; [reflexivity|].
           repeat split; auto.
Qed.

Lemma close_array_to_root (j : CJson) (rest : string) :
  poison j = None -> cur_state j = ArrayAwaitingValue -> p j = String "]"%char rest ->
  level j = 1 -> nth 0 (states j) Root = Root ->
  close_array j = (set_p (set_level (set_p j rest) 0) (skip_space rest), inr tt).
Proof.
  intros Hp Hs Hpj Hl H0.
  unfold close_array. rewrite Hp, Hs, Hpj. cbn [lvl_eqb negb andb cur adv1].
  change (ceq "]"%char "]"%char) with true. cbv iota. cbn [negb].
  replace (size_dec (level j)) with 0 by (rewrite Hl; reflexivity).
  unfold advance_then, advance. cbv zeta.
  change (poison (set_level (set_p j rest) 0)) with (poison j). rewrite Hp.
  replace (cur_state (set_p (set_level (set_p j rest) 0) (skip_space (p (set_level (set_p j rest) 0)))))
    with Root by (symmetry; exact H0).
  reflexivity.
Qed.

(** A caller reading a top-level array of unsigned numbers with
    [c_json_open_array], a loop of [c_json_more] and [c_json_read_u64],
    and [c_json_close_array] gets the numbers in order, for any number of
    elements (also none) and with any whitespace before the array, after
    its opening bracket and around each number, and is back at the top
    level, behind the array and the whitespace after it. *)
Theorem read_u64_array_reads (d : Z) (w0 w1 : string)
    (es : list (string * string * string)) (rest : string) :
  1 <= d < SIZE_MOD - SIZEOF_CJSON - 1 -> ws_only w0 = true -> ws_only w1 = true ->
  Forall num_elem es ->
  let s := (w0 ++ "[" ++ w1 ++ join_comma (map elem_text es) ++ "]" ++ rest)%string in
  let j := fst (read_u64_array (session d s)) in
  snd (read_u64_array (session d s)) = inr (map elem_value es)
  /\ poison j = None /\ level j = 0 /\ p j = skip_space rest.
Proof.
  intros Hd Hw0 Hw1 Hf. cbv zeta.
  set (s := (w0 ++ "[" ++ w1 ++ join_comma (map elem_text es) ++ "]" ++ rest)%string).
  destruct (session_pos d s Hd) as [m E].
  rewrite E.
  set (Y := (join_comma (map elem_text es) ++ String "]"%char rest)%string).
  assert (Hs : skip_space s = String "["%char (w1 ++ Y)).
  { unfold s. rewrite (skip_space_ws w0 _ Hw0). reflexivity. }
  set (J1 := mkCJson (Some s) (skip_space Y) None (Z.of_nat (S m)) 1
                     (Root :: ArrayAwaitingValue :: repeat Root m)).
  assert (Ho : open_array (mkCJson (Some s) (skip_space s) None
                              (Z.of_nat (S m)) 0 (Root :: Root :: repeat Root m))
               = (J1, inr tt)).
  { rewrite Hs. unfold open_array. cbn -[skip_space].
    rewrite (skip_space_ws w1 Y Hw1). reflexivity. }
  unfold read_u64_array. rewrite Ho.
  destruct (items_loop es rest Hf (S (String.length (p J1))) J1 [])
    as (j' & H1 & H2 & H3 & H4 & H5 & H6 & H7).
  - reflexivity.
  - cbn. lia.
  - left. reflexivity.
  - reflexivity.
  - cbn [p J1]. unfold Y. pose proof (length_skip_join es (String "]"%char rest) Hf). lia.
  - rewrite H1. cbn [app].
    rewrite (close_array_to_root j' rest H2 H3 H4).
    + split; [reflexivity|]. split; [exact H2|]. split; reflexivity.
    + rewrite H5. reflexivity.
    + rewrite (H7 0%nat) by (cbn; lia). reflexivity.
Qed.

Lemma read_u64_array_reads_witness :
  Forall num_elem small_elems
  /\ snd (read_u64_array (session 1 (" [" ++ join_comma (map elem_text small_elems) ++ "]" ++ " ")))
     = inr [1; 20; 300].
Proof.
  assert (H : Forall num_elem small_elems).
  { repeat constructor; try discriminate; vm_compute; congruence. }
  split; [exact H|].
  exact (proj1 (read_u64_array_reads 1 " " EmptyString small_elems " "
                  ltac:(unfold SIZE_MOD, SIZEOF_CJSON; lia) eq_refl eq_refl H)).
Defined.

(** ** Reusing a decoder *)

Lemma sb_cur_state (j1 j2 : CJson) : same_below j1 j2 -> cur_state j1 = cur_state j2.
Proof.
  intros (_ & _ & _ & _ & Hl & _ & Ha). unfold cur_state.
  rewrite <- Hl. apply Ha. lia.
Qed.

Lemma sb_set_p (j1 j2 : CJson) (x : string) :
  same_below j1 j2 -> same_below (set_p j1 x) (set_p j2 x).
Proof.
  intros (Hi & Hp & Hpo & Hn & Hl & Hlen & Ha).
  unfold same_below, set_p; cbn. repeat split; assumption.
Qed.

Lemma sb_set_poison (j1 j2 : CJson) (e : err) :
  same_below j1 j2 -> same_below (set_poison j1 e) (set_poison j2 e).
Proof.
  intros (Hi & Hp & Hpo & Hn & Hl & Hlen & Ha).
  unfold same_below, set_poison; cbn. repeat split; try reflexivity; assumption.
Qed.

Lemma nth_list_set_agree (l1 l2 : list lvl) (k i : nat) (v : lvl) :
  length l1 = length l2 -> (i = k \/ nth i l1 Root = nth i l2 Root) ->
  nth i (list_set l1 k v) Root = nth i (list_set l2 k v) Root.
Proof.
  intros Hlen [->|Ha].
  - destruct (Nat.lt_ge_cases k (length l1)) as [Hk|Hk].
    + rewrite !nth_list_set_same by lia. reflexivity.
    + rewrite !nth_overflow by (rewrite length_list_set; lia). reflexivity.
  - destruct (Nat.eq_dec k i) as [->|Hne].
    + destruct (Nat.lt_ge_cases i (length l1)) as [Hk|Hk].
      * rewrite !nth_list_set_same by lia. reflexivity.
      * rewrite !nth_overflow by (rewrite length_list_set; lia). reflexivity.
    + rewrite !nth_list_set_other by exact Hne. exact Ha.
Qed.

Lemma sb_set_state (j1 j2 : CJson) (v : lvl) :
  same_below j1 j2 -> same_below (set_state j1 v) (set_state j2 v).
Proof.
  intros (Hi & Hp & Hpo & Hn & Hl & Hlen & Ha).
  unfold same_below, set_state; cbn [input p poison n_states level states].
  rewrite <- Hl, !length_list_set.
  repeat split; try assumption.
  intros i Hle. apply nth_list_set_agree; [exact Hlen|].
  right. apply Ha. exact Hle.
Qed.

Lemma sb_set_level_le (j1 j2 : CJson) (l : Z) :
  same_below j1 j2 -> 0 <= l <= level j1 ->
  same_below (set_level j1 l) (set_level j2 l).
Proof.
  intros (Hi & Hp & Hpo & Hn & Hl & Hlen & Ha) Hb.
  unfold same_below, set_level; cbn [input p poison n_states level states].
  repeat split; try assumption.
  intros i Hle. apply Ha. lia.
Qed.

Lemma sb_push (j1 j2 : CJson) (v : lvl) :
  same_below j1 j2 -> 0 <= level j1 -> level j1 + 1 < SIZE_MOD ->
  same_below (push_level j1 v) (push_level j2 v).
Proof.
  intros (Hi & Hp & Hpo & Hn & Hl & Hlen & Ha) H0 H1.
  unfold same_below, push_level, set_state, set_level, size_inc;
    cbn [input p poison n_states level states].
  rewrite <- Hl, !length_list_set, Z.mod_small by lia.
  repeat split; try assumption.
  intros i Hle. apply nth_list_set_agree; [exact Hlen|].
  destruct (Nat.eq_dec i (Z.to_nat (level j1 + 1))) as [E|E]; [left; exact E|].
  right. apply Ha. lia.
Qed.

Lemma sb_res_keep {A} (j1 j2 : CJson) (x : A) :
  same_below j1 j2 -> sb_res (j1, x) (j2, x).
Proof. intros H. split; [exact H | reflexivity]. Qed.

Lemma sb_res_fail {A} (j1 j2 : CJson) (e : err) :
  same_below j1 j2 -> sb_res (@fail A j1 e) (@fail A j2 e).
Proof. intros H. split; [apply sb_set_poison; exact H | reflexivity]. Qed.

Ltac sb_fields H :=
  let Hp := fresh "Hp" in let Hpo := fresh "Hpo" in
  let Hn := fresh "Hn" in let Hl := fresh "Hl" in
  pose proof H as (_ & Hp & Hpo & Hn & Hl & _ & _);
  rewrite <- ?Hp, <- ?Hpo, <- ?Hn, <- ?Hl;
  try rewrite <- (sb_cur_state _ _ H).

Ltac sb_leaf := solve [
  first
    [ apply sb_res_keep
    | apply sb_res_fail
    | split; [ | reflexivity ] ];
  repeat first
    [ assumption
    | apply sb_set_p
    | apply sb_set_state
    | apply sb_set_poison ] ].

Lemma sb_advance (j1 j2 : CJson) :
  same_below j1 j2 -> sb_res (advance j1) (advance j2).
Proof.
  intros H. unfold advance. sb_fields H.
  destruct (poison j1); [apply sb_res_keep; exact H|].
  cbv zeta. rewrite !cur_state_set_p, !p_set_p.
  rewrite <- (sb_cur_state _ _ H).
  destruct (cur_state j1);
    repeat match goal with
           | |- context [if ?b then _ else _] => destruct b
           end; sb_leaf.
Qed.

Lemma sb_advance_then {A} (j1 j2 : CJson) (v : A) :
  same_below j1 j2 -> sb_res (advance_then j1 v) (advance_then j2 v).
Proof.
  intros H. pose proof (sb_advance j1 j2 H) as [Hs Hr].
  unfold advance_then.
  destruct (advance j1) as [a1 [e1|]], (advance j2) as [a2 o2];
    cbn [fst snd] in Hs, Hr; subst o2; split; cbn [fst snd]; auto.
Qed.

Ltac sb_branches :=
  repeat match goal with
         | |- context [match poison ?j with _ => _ end] => destruct (poison j)
         | |- context [if ?b then _ else _] => let E := fresh "Eb" in destruct b eqn:E
         end.

Lemma sb_read_null (j1 j2 : CJson) :
  same_below j1 j2 -> sb_res (read_null j1) (read_null j2).
Proof.
  intros H. unfold read_null. sb_fields H. sb_branches;
    first [apply sb_advance_then; apply sb_set_p; exact H | sb_leaf].
Qed.

Lemma sb_read_bool (j1 j2 : CJson) :
  same_below j1 j2 -> sb_res (read_bool j1) (read_bool j2).
Proof.
  intros H. unfold read_bool. sb_fields H. sb_branches;
    first [apply sb_advance_then; apply sb_set_p; exact H | sb_leaf].
Qed.

Lemma sb_read_u64 (j1 j2 : CJson) :
  same_below j1 j2 -> sb_res (read_u64 j1) (read_u64 j2).
Proof.
  intros H. unfold read_u64. sb_fields H.
  destruct (poison j1); [sb_leaf|].
  destruct (strtoul (p j1)). sb_branches;
    first [apply sb_advance_then; apply sb_set_p; exact H | sb_leaf].
Qed.

Lemma sb_read_f64 (j1 j2 : CJson) :
  same_below j1 j2 -> sb_res (read_f64 j1) (read_f64 j2).
Proof.
  intros H. unfold read_f64. sb_fields H.
  destruct (poison j1); [sb_leaf|]. cbv zeta.
  sb_branches; first [apply sb_advance_then; apply sb_set_p; exact H | sb_leaf].
Qed.

Lemma sb_read_string (j1 j2 : CJson) :
  same_below j1 j2 -> sb_res (read_string j1) (read_string j2).
Proof.
  intros H. unfold read_string. sb_fields H.
  destruct (poison j1); [sb_leaf|].
  destruct (ceq (cur (p j1)) dquote); cbn [negb]; [|sb_leaf].
  destruct (string_body _ _ _) as [e|[out s']];
    first [apply sb_advance_then; apply sb_set_p; exact H | sb_leaf].
Qed.

Lemma sb_open_array (md : Z) (j1 j2 : CJson) :
  md < SIZE_MOD -> inv md j1 -> same_below j1 j2 ->
  sb_res (open_array j1) (open_array j2).
Proof.
  intros Hmd Hi H. unfold open_array. sb_fields H. sb_branches; try sb_leaf.
  split; [|reflexivity]. cbn [fst].
  destruct Hi as (Hn' & _ & Hl' & _). apply Z.leb_gt in Eb1.
  apply sb_push; [apply sb_set_p; exact H | cbn; lia | cbn; unfold SIZE_MOD in *; lia].
Qed.

Lemma sb_open_object (md : Z) (j1 j2 : CJson) :
  md < SIZE_MOD -> inv md j1 -> same_below j1 j2 ->
  sb_res (open_object j1) (open_object j2).
Proof.
  intros Hmd Hi H. unfold open_object. cbv zeta. sb_fields H.
  rewrite ?p_set_p. sb_branches; try sb_leaf.
  split; [|reflexivity]. cbn [fst].
  destruct Hi as (Hn' & _ & Hl' & _). apply Z.leb_gt in Eb1.
  apply sb_push; [apply sb_set_p; exact H | cbn; lia | cbn; unfold SIZE_MOD in *; lia].
Qed.

Lemma sb_pop_then (md : Z) (j1 j2 : CJson) (x : string) :
  md < SIZE_MOD -> inv md j1 -> cur_state j1 <> Root -> same_below j1 j2 ->
  sb_res (advance_then (set_level (set_p j1 x) (size_dec (level j1))) tt)
         (advance_then (set_level (set_p j2 x) (size_dec (level j1))) tt).
Proof.
  intros Hmd Hi Hs H.
  pose proof (inv_root_level md j1 Hi Hs) as H1.
  destruct Hi as (_ & _ & Hl' & _).
  apply sb_advance_then. apply sb_set_level_le; [apply sb_set_p; exact H|].
  unfold size_dec, SIZE_MOD in *. cbn [level set_p].
  rewrite Z.mod_small by lia. lia.
Qed.

Lemma sb_close_array (md : Z) (j1 j2 : CJson) :
  md < SIZE_MOD -> inv md j1 -> same_below j1 j2 ->
  sb_res (close_array j1) (close_array j2).
Proof.
  intros Hmd Hi H. unfold close_array. sb_fields H.
  destruct (poison j1); [sb_leaf|].
  destruct (cur_state j1) eqn:Es; cbn [lvl_eqb negb andb]; sb_branches; try sb_leaf;
    apply (sb_pop_then md); try assumption; rewrite Es; discriminate.
Qed.

Lemma sb_close_object (md : Z) (j1 j2 : CJson) :
  md < SIZE_MOD -> inv md j1 -> same_below j1 j2 ->
  sb_res (close_object j1) (close_object j2).
Proof.
  intros Hmd Hi H. unfold close_object. sb_fields H.
  destruct (poison j1); [sb_leaf|].
  destruct (cur_state j1) eqn:Es; cbn [lvl_eqb negb andb]; sb_branches; try sb_leaf;
    apply (sb_pop_then md); try assumption; rewrite Es; discriminate.
Qed.

Lemma sb_begin_read (j1 j2 : CJson) (s : string) :
  same_below j1 j2 -> same_below (begin_read j1 s) (begin_read j2 s).
Proof.
  intros (Hi & Hp & Hpo & Hn & Hl & Hlen & Ha).
  unfold same_below, begin_read; cbn [input p poison n_states level states].
  repeat split; try reflexivity; assumption.
Qed.

Lemma sb_end_read (j1 j2 : CJson) :
  same_below j1 j2 -> sb_res (end_read j1) (end_read j2).
Proof.
  intros H. pose proof H as (Hi & Hp & Hpo & Hn & Hl & Hlen & Ha).
  unfold end_read. rewrite <- Hp, <- Hpo, <- Hn, <- Hl.
  split; [|reflexivity].
  unfold same_below; cbn [fst input p poison n_states level states].
  repeat split; try reflexivity; try assumption.
  intros i Hle. apply Ha. lia.
Qed.

Lemma sb_peek (j1 j2 : CJson) : same_below j1 j2 -> peek j1 = peek j2.
Proof.
  intros (_ & Hp & Hpo & _). unfold peek. rewrite Hp, Hpo. reflexivity.
Qed.

Lemma sb_more (j1 j2 : CJson) : same_below j1 j2 -> more j1 = more j2.
Proof.
  intros H. pose proof H as (_ & Hp & Hpo & _). unfold more.
  rewrite Hp, Hpo, (sb_cur_state _ _ H). reflexivity.
Qed.

Lemma sb_on_code {A} (x1 x2 : CJson * (err + A)) :
  sb_res x1 x2 -> sb_res (on_code x1) (on_code x2).
Proof.
  intros [Hs Hr]. unfold on_code. split; cbn [fst snd]; [exact Hs | rewrite Hr; reflexivity].
Qed.

Lemma sb_step (md : Z) (j1 j2 : CJson) (o : op) :
  0 <= md < SIZE_MOD -> inv md j1 -> same_below j1 j2 ->
  sb_res (step j1 o) (step j2 o).
Proof.
  intros Hmd Hi H. destruct o; cbn [step].
  - apply sb_res_keep. apply sb_begin_read. exact H.
  - pose proof (sb_end_read j1 j2 H) as [Hs Hr].
    destruct (end_read j1) as [a1 r1], (end_read j2) as [a2 r2].
    cbn [fst snd] in Hs, Hr. subst r2. apply sb_res_keep. exact Hs.
  - rewrite (sb_peek j1 j2 H). apply sb_res_keep. exact H.
  - rewrite (sb_more j1 j2 H). apply sb_res_keep. exact H.
  - apply sb_on_code, sb_read_null. exact H.
  - apply sb_on_code, sb_read_bool. exact H.
  - apply sb_on_code, sb_read_u64. exact H.
  - apply sb_on_code, sb_read_string. exact H.
  - apply sb_on_code, (sb_open_array md); [lia | exact Hi | exact H].
  - apply sb_on_code, (sb_close_array md); [lia | exact Hi | exact H].
  - apply sb_on_code, (sb_open_object md); [lia | exact Hi | exact H].
  - apply sb_on_code, (sb_close_object md); [lia | exact Hi | exact H].
  - apply sb_on_code, sb_read_f64. exact H.
Qed.

Lemma sb_exec (md : Z) (ops : list op) (j1 j2 : CJson) :
  0 <= md < SIZE_MOD -> inv md j1 -> same_below j1 j2 ->
  snd (exec j1 ops) = snd (exec j2 ops).
Proof.
  intros Hmd. revert j1 j2. induction ops as [|o ops IH]; intros j1 j2 Hi H;
    [reflexivity|].
  pose proof (sb_step md j1 j2 o Hmd Hi H) as [Hs Hr].
  pose proof (inv_step md j1 o Hmd Hi) as Hi'.
  cbn [exec].
  destruct (step j1 o) as [a1 r1], (step j2 o) as [a2 r2].
  cbn [fst snd] in Hs, Hr, Hi'. subst r2.
  pose proof (IH a1 a2 Hi' Hs) as He.
  destruct (exec a1 ops), (exec a2 ops). cbn [snd] in He |- *. rewrite He. reflexivity.
Qed.

Lemma fst_exec_app (j : CJson) (a b : list op) :
  fst (exec j (a ++ b)) = fst (exec (fst (exec j a)) b).
Proof.
  revert j. induction a as [|o a IH]; intros j; [reflexivity|].
  rewrite <- app_comm_cons, !fst_exec_cons. apply IH.
Qed.

(** After any history of calls on a decoder of depth [max_depth] that
    leaves it unpoisoned, [c_json_end_read] followed by
    [c_json_begin_read(s)] gives a decoder that answers every later
    sequence of calls exactly as a fresh [c_json_new(max_depth)] would on
    [s]: the level is reset to 0 and the stale entries left above it in
    the state stack are never read before they are rewritten. *)
Theorem reuse_after_end (md : Z) (hist ops : list op) (s : string) :
  0 <= md < SIZE_MOD - SIZEOF_CJSON - 1 -> poison (fst (exec (c_json_new md) hist)) = None ->
  snd (exec (fst (exec (c_json_new md) (hist ++ [End; Begin s]))) ops)
  = snd (exec (session md s) ops).
Proof.
  intros Hmd' Hpo.
  assert (Hmd : 0 <= md < SIZE_MOD) by (unfold SIZE_MOD, SIZEOF_CJSON in *; lia).
  rewrite fst_exec_app.
  pose proof (inv_exec md (c_json_new md) hist Hmd (inv_new md Hmd')) as Hi.
  remember (fst (exec (c_json_new md) hist)) as j eqn:Ej. clear Ej.
  cbn [exec step fst]. unfold end_read. cbv zeta. cbn [exec step fst snd].
  pose proof Hi as (Hn & Hlen & Hl & H0).
  apply (sb_exec md).
  - exact Hmd.
  - unfold inv, begin_read; cbn [n_states states level].
    split; [exact Hn|]. split; [exact Hlen|]. split; [lia | exact H0].
  - unfold same_below, session, begin_read, c_json_new;
      cbn [input p poison n_states level states].
    rewrite repeat_length, Hpo, Hn, Hlen, (slots_new md Hmd').
    repeat split; try reflexivity.
    intros i Hle. cbn in Hle. assert (i = 0%nat) as -> by lia.
    rewrite H0, nth_repeat_Root. reflexivity.
Qed.

Lemma reuse_after_end_witness :
  poison (fst (exec (c_json_new 1) [Begin "[1, 2"%string; OpenArray; ReadU64])) = None
  /\ snd (exec (fst (exec (c_json_new 1)
                    ([Begin "[1, 2"%string; OpenArray; ReadU64] ++ [End; Begin "7"%string])))
               [ReadU64; End])
     = snd (exec (session 1 "7"%string) [ReadU64; End]).
Proof.
  split; [vm_compute; reflexivity|].
  apply reuse_after_end; [unfold SIZE_MOD, SIZEOF_CJSON; lia | vm_compute; reflexivity].
Defined.

(** ** Literals at the top level *)

Lemma skip_space_lits (ls : list (option bool)) : skip_space (lits ls) = lits ls.
Proof. destruct ls as [|[[|]|] t]; reflexivity. Qed.

Lemma root_literal (j : CJson) (o : option bool) (t : string) :
  poison j = None -> cur_state j = Root -> p j = (lit_text o ++ t)%string ->
  skip_space t = t ->
  step j (lit_op o) = (set_p (set_p j t) t, RCode None).
Proof.
  intros Hpo Hcs Hp Ht.
  destruct o as [[|]|]; cbn [lit_op step on_code];
    [unfold read_bool | unfold read_bool | unfold read_null];
    rewrite ?Hpo, Hcs, ?Hpo, Hp; cbn [lvl_eqb lit_text];
    cbn [cur append ceq lit_at String.prefix negb advn adv1];
    rewrite ?prefix_nil; cbn [negb];
    unfold advance_then, advance; rewrite ?p_set_p, ?cur_state_set_p, Hcs, Ht;
    cbn [set_p poison]; rewrite Hpo; reflexivity.
Qed.

(** At the top level the readers of [null], [true] and [false] ask for no
    separator after the literal, and [c_json_end_read] only asks that the
    input be used up: any literals written one after the other, such as
    [truefalsenull], are read as that many top-level values, every call
    succeeding, [c_json_end_read] included. *)
Theorem root_literals_unseparated (d : Z) (ls : list (option bool)) :
  snd (exec (session d (lits ls)) (map lit_op ls ++ [End]))
  = repeat (RCode None) (S (length ls)).
Proof.
  assert (H : forall j, poison j = None -> level j = 0 -> cur_state j = Root ->
                p j = lits ls ->
                snd (exec j (map lit_op ls ++ [End]))
                = repeat (RCode None) (S (length ls))).
  { induction ls as [|o t IH]; intros j Hpo Hl Hcs Hp.
    - cbn [map app exec step]. unfold end_read.
      rewrite Hpo, Hl, Hp. reflexivity.
    - cbn [map app lits] in *. rewrite snd_exec_cons.
      rewrite (root_literal j o (lits t) Hpo Hcs Hp (skip_space_lits t)).
      cbn [fst snd length repeat]. f_equal. apply IH.
      + exact Hpo.
      + exact Hl.
      + rewrite !cur_state_set_p. exact Hcs.
      + apply p_set_p. }
  apply H; [reflexivity | reflexivity | |].
  - unfold session, begin_read, c_json_new, cur_state; cbn [level states].
    apply nth_repeat_Root.
  - unfold session, begin_read, c_json_new; cbn [p]. apply skip_space_lits.
Qed.
